(** * Kanboard JSON-RPC client: a shallow embedding of [kanboard.py]

    The development follows the source file top to bottom: the text
    helpers the client relies on ([str.split], [str.title], slicing,
    [base64.b64encode]), the JSON values that travel in requests and
    responses, the [Client] object with its constructor, the name
    resolver of [__getattr__], and the request path
    [execute] -> [_do_request] -> [_parse_response].

    A Python [str] is represented by a [string] with one character
    per code point, which covers the code points below 256; a [bytes]
    value by a [string] with one character per byte.  Letter casing is
    modelled on the ASCII range, below 128. *)

From Stdlib Require Import ZArith NArith Ascii String List Bool Lia DecimalString.
From stdpp Require Import base strings gmap list.

Local Open Scope string_scope.

#[local] Set Warnings "-register-all".

(** ** Text helpers *)

Module Str.

Definition code (c : ascii) : N := N_of_ascii c.

Definition is_lower (c : ascii) : bool := (97 <=? code c)%N && (code c <=? 122)%N.
Definition is_upper (c : ascii) : bool := (65 <=? code c)%N && (code c <=? 90)%N.
Definition is_digit (c : ascii) : bool := (48 <=? code c)%N && (code c <=? 57)%N.

(** [_PyUnicode_IsCased] on the ASCII range: the letters. *)
Definition is_cased (c : ascii) : bool := is_lower c || is_upper c.

Definition to_upper (c : ascii) : ascii :=
  if is_lower c then ascii_of_N (code c - 32) else c.

Definition to_lower (c : ascii) : ascii :=
  if is_upper c then ascii_of_N (code c + 32) else c.

(** [str.title()] on ASCII text: a character that follows a cased
    character is lower-cased, any other character is title-cased
    (upper-cased, on this range); whether the next character follows a
    cased one is decided by the character as it was in the input.
    Characters from 128 on are left as they are, which is not what
    [str.title()] does with them. *)
Fixpoint title_from (previous_is_cased : bool) (s : string) : string :=
  match s with
  | EmptyString => EmptyString
  | String c rest =>
      String (if previous_is_cased then to_lower c else to_upper c)
             (title_from (is_cased c) rest)
  end.

Definition title (s : string) : string := title_from false s.

(** [s.split(sep)] for a one-character separator: the list of the
    pieces between separators, empty pieces included, never empty. *)
Fixpoint split (sep : ascii) (s : string) : list string :=
  match s with
  | EmptyString => [EmptyString]
  | String c rest =>
      if Ascii.eqb c sep then EmptyString :: split sep rest
      else match split sep rest with
           | piece :: pieces => String c piece :: pieces
           | [] => [String c EmptyString]
           end
  end.

(** [sep.join(pieces)] for the empty separator *)
Fixpoint join (pieces : list string) : string :=
  match pieces with
  | [] => EmptyString
  | piece :: rest => piece +:+ join rest
  end.

(** [key in s] *)
Fixpoint has_substring (key s : string) : bool :=
  String.prefix key s
  || match s with
     | String _ rest => has_substring key rest
     | EmptyString => false
     end.

(** [s.endswith(suffix)] *)
Definition endswith (s suffix : string) : bool :=
  let n := String.length s in
  let k := String.length suffix in
  (k <=? n)%nat && String.eqb (substring (n - k) k s) suffix.

(** [s[:stop]], with Python's reading of a negative or oversized
    bound. *)
Definition slice_to (s : string) (stop : Z) : string :=
  let n := Z.of_nat (String.length s) in
  let stop' := if (stop <? 0)%Z then Z.max 0 (n + stop) else Z.min stop n in
  substring 0 (Z.to_nat stop') s.

End Str.

(** ** Name resolution *)

Definition DEFAULT_AUTH_HEADER : string := "Authorization".
Definition ASYNC_FUNCNAME_MARKER : string := "_async".

Definition is_async_method_name (funcname : string) : bool :=
  Str.endswith funcname ASYNC_FUNCNAME_MARKER.

Definition get_funcname_from_async_name (funcname : string) : string :=
  Str.slice_to funcname
    (Z.of_nat (String.length funcname) - Z.of_nat (String.length ASYNC_FUNCNAME_MARKER)).

(** The first component followed by the title-cased later ones;
    [components] has at least one element, so [components[0]] is always
    defined. *)
Definition _to_camel_case (snake_str : string) : string :=
  let components := Str.split "_" snake_str in
  match components with
  | [] => EmptyString
  | first :: others => first +:+ Str.join (map Str.title others)
  end.

(** ** [base64.b64encode] *)

Module Base64.

Definition alphabet : string :=
  "ABCDEFGHIJKLMNOPQRSTUVWXYZabcdefghijklmnopqrstuvwxyz0123456789+/".

Definition digit (n : N) : ascii :=
  match String.get (N.to_nat n) alphabet with
  | Some c => c
  | None => "="%char
  end.

(** Three input bytes give four digits of six bits each; a final
    group of one or two bytes is padded with [=]. *)
Fixpoint b64encode (s : string) : string :=
  match s with
  | EmptyString => EmptyString
  | String a EmptyString =>
      let x := Str.code a in
      String (digit (N.shiftr x 2))
        (String (digit (N.shiftl (N.land x 3) 4)) "==")
  | String a (String b EmptyString) =>
      let x := Str.code a in
      let y := Str.code b in
      String (digit (N.shiftr x 2))
        (String (digit (N.lor (N.shiftl (N.land x 3) 4) (N.shiftr y 4)))
           (String (digit (N.shiftl (N.land y 15) 2)) "="))
  | String a (String b (String c rest)) =>
      let x := Str.code a in
      let y := Str.code b in
      let z := Str.code c in
      String (digit (N.shiftr x 2))
        (String (digit (N.lor (N.shiftl (N.land x 3) 4) (N.shiftr y 4)))
           (String (digit (N.lor (N.shiftl (N.land y 15) 2) (N.shiftr z 6)))
              (String (digit (N.land z 63)) (b64encode rest))))
  end.

End Base64.

(** ** Python values carried by requests and responses *)

(** The values [json.loads] produces and [json.dumps] accepts.  A
    [float] keeps the lexeme it was read from; a [dict] is a finite map
    from keys to values. *)
Inductive value : Type :=
  | VNone
  | VBool (b : bool)
  | VInt (n : Z)
  | VFloat (lexeme : string)
  | VStr (s : string)
  | VList (items : list value)
  | VDict (members : gmap string value).


(** [type(v).__name__], as it appears in the interpreter's messages. *)
Definition type_name (v : value) : string :=
  match v with
  | VNone => "NoneType"
  | VBool _ => "bool"
  | VInt _ => "int"
  | VFloat _ => "float"
  | VStr _ => "str"
  | VList _ => "list"
  | VDict _ => "dict"
  end.

(** A dict display [{k1: v1, k2: v2, ...}]: the entries are stored
    from left to right, a later entry replacing an earlier one with the
    same key. *)
Definition dict_literal {V : Type} (entries : list (string * V)) : gmap string V :=
  foldl (fun d entry => <[entry.1 := entry.2]> d) ∅ entries.

(** ** A JSON decoder

    [loads] reads a JSON text (RFC 8259) over ASCII: the literals,
    numbers, strings with the two-character escapes, arrays and objects,
    a repeated member name keeping its last value.  A failure carries
    the kind of the failure, not its position, and there is no bound on
    the nesting. *)

Module Json.

Definition is_ws (c : ascii) : bool :=
  Ascii.eqb c " " || Ascii.eqb c "009" || Ascii.eqb c "010" || Ascii.eqb c "013".

Fixpoint skip_ws (s : string) : string :=
  match s with
  | String c rest => if is_ws c then skip_ws rest else s
  | EmptyString => s
  end.

(** [strip_prefix p s] is the rest of [s] after [p]. *)
Fixpoint strip_prefix (p s : string) : option string :=
  match p, s with
  | EmptyString, _ => Some s
  | String a p', String b s' => if Ascii.eqb a b then strip_prefix p' s' else None
  | String _ _, EmptyString => None
  end.

(** The digits at the head of [s], and what follows them. *)
Fixpoint span_digits (s : string) : string * string :=
  match s with
  | String c rest =>
      if Str.is_digit c
      then let '(ds, tail) := span_digits rest in (String c ds, tail)
      else (EmptyString, s)
  | EmptyString => (EmptyString, s)
  end.

Definition digits_value (ds : string) : Z :=
  fold_left (fun acc c => (10 * acc + Z.of_N (Str.code c - 48))%Z)
            (list_ascii_of_string ds) 0%Z.

Definition unescape (c : ascii) : option ascii :=
  if Ascii.eqb c "034" then Some "034"%char
  else if Ascii.eqb c "\" then Some "\"%char
  else if Ascii.eqb c "/" then Some "/"%char
  else if Ascii.eqb c "b" then Some "008"%char
  else if Ascii.eqb c "f" then Some "012"%char
  else if Ascii.eqb c "n" then Some "010"%char
  else if Ascii.eqb c "r" then Some "013"%char
  else if Ascii.eqb c "t" then Some "009"%char
  else None.

(** The characters of a string up to its closing quote. *)
Fixpoint string_body (s : string) : string + (string * string) :=
  match s with
  | EmptyString => inl "Unterminated string"
  | String c rest =>
      if Ascii.eqb c "034" then inr (EmptyString, rest)
      else if Ascii.eqb c "\" then
        match rest with
        | String e rest' =>
            match unescape e with
            | Some c' =>
                match string_body rest' with
                | inr (body, tail) => inr (String c' body, tail)
                | inl err => inl err
                end
            | None => inl "Invalid \escape"
            end
        | EmptyString => inl "Unterminated string"
        end
      else if (Str.code c <? 32)%N then inl "Invalid control character"
      else match string_body rest with
           | inr (body, tail) => inr (String c body, tail)
           | inl err => inl err
           end
  end.

(** A number: an optional minus sign; an integer part, either a
    single zero or digits that do not start with zero; an optional
    fraction (a dot and digits); an optional exponent (e or E, an
    optional sign, digits).  A fraction or an exponent makes it a
    float. *)
Definition number (s : string) : string + (value * string) :=
  let '(sign, s1) := match s with
                     | String "-" rest => ("-", rest)
                     | _ => (EmptyString, s)
                     end in
  let '(int_part, s2) := match s1 with
                         | String "0" rest => ("0", rest)
                         | _ => span_digits s1
                         end in
  let '(frac, s3) :=
    match s2 with
    | String "." rest =>
        match span_digits rest with
        | (EmptyString, _) => (EmptyString, s2)
        | (ds, tail) => ("." +:+ ds, tail)
        end
    | _ => (EmptyString, s2)
    end in
  let '(expo, s4) :=
    match s3 with
    | String e rest =>
        if Ascii.eqb e "e" || Ascii.eqb e "E" then
          let '(esign, rest') := match rest with
                                 | String "+" r => ("+", r)
                                 | String "-" r => ("-", r)
                                 | _ => (EmptyString, rest)
                                 end in
          match span_digits rest' with
          | (EmptyString, _) => (EmptyString, s3)
          | (ds, tail) => (String e (esign +:+ ds), tail)
          end
        else (EmptyString, s3)
    | EmptyString => (EmptyString, s3)
    end in
  match int_part, frac, expo with
  | EmptyString, _, _ => inl "Expecting value"
  | _, EmptyString, EmptyString =>
      inr (VInt (if String.eqb sign "-" then - digits_value int_part
                 else digits_value int_part)%Z, s2)
  | _, _, _ => inr (VFloat (sign +:+ int_part +:+ frac +:+ expo), s4)
  end.

(** One value at the head of [s] (no leading white space), and what
    follows it.  [fuel] bounds the nesting and the number of
    elements; each step consumes input, so the length of the text is
    enough. *)
Fixpoint scan (fuel : nat) (s : string) : string + (value * string) :=
  match fuel with
  | O => inl "Expecting value"
  | S fuel' =>
      match s with
      | String "034" rest =>
          match string_body rest with
          | inr (body, tail) => inr (VStr body, tail)
          | inl err => inl err
          end
      | String "[" rest =>
          match skip_ws rest with
          | String "]" tail => inr (VList [], tail)
          | rest' => elements fuel' rest' []
          end
      | String "{" rest =>
          match skip_ws rest with
          | String "}" tail => inr (VDict ∅, tail)
          | rest' => members fuel' rest' ∅
          end
      | _ =>
          match strip_prefix "null" s, strip_prefix "true" s, strip_prefix "false" s with
          | Some tail, _, _ => inr (VNone, tail)
          | _, Some tail, _ => inr (VBool true, tail)
          | _, _, Some tail => inr (VBool false, tail)
          | None, None, None => number s
          end
      end
  end
with elements (fuel : nat) (s : string) (acc : list value) : string + (value * string) :=
  match fuel with
  | O => inl "Expecting value"
  | S fuel' =>
      match scan fuel' s with
      | inl err => inl err
      | inr (v, tail) =>
          match skip_ws tail with
          | String "]" tail' => inr (VList (acc ++ [v]), tail')
          | String "," tail' => elements fuel' (skip_ws tail') (acc ++ [v])
          | _ => inl "Expecting ',' delimiter"
          end
      end
  end
with members (fuel : nat) (s : string) (acc : gmap string value) : string + (value * string) :=
  match fuel with
  | O => inl "Expecting value"
  | S fuel' =>
      match s with
      | String "034" rest =>
          match string_body rest with
          | inl err => inl err
          | inr (key, tail) =>
              match skip_ws tail with
              | String ":" tail' =>
                  match scan fuel' (skip_ws tail') with
                  | inl err => inl err
                  | inr (v, tail'') =>
                      match skip_ws tail'' with
                      | String "}" rest' => inr (VDict (<[key := v]> acc), rest')
                      | String "," rest' => members fuel' (skip_ws rest') (<[key := v]> acc)
                      | _ => inl "Expecting ',' delimiter"
                      end
                  end
              | _ => inl "Expecting ':' delimiter"
              end
          end
      | _ => inl "Expecting property name enclosed in double quotes"
      end
  end.

Definition loads (s : string) : string + value :=
  match scan (S (String.length s)) (skip_ws s) with
  | inl err => inl err
  | inr (v, tail) =>
      match skip_ws tail with
      | EmptyString => inr v
      | _ => inl "Extra data"
      end
  end.

Definition escape (c : ascii) : string :=
  if Ascii.eqb c "034" then String "\" (String "034" EmptyString)
  else if Ascii.eqb c "\" then "\\"
  else if Ascii.eqb c "010" then "\n"
  else if Ascii.eqb c "013" then "\r"
  else if Ascii.eqb c "009" then "\t"
  else String c EmptyString.

Definition quote (s : string) : string :=
  String "034" (String.concat EmptyString (map escape (list_ascii_of_string s)))
    +:+ String "034" EmptyString.

(** [dumps] writes a value as a JSON text, the members of an object
    in the order of the map and a float by its lexeme. *)
Fixpoint dumps (v : value) : string :=
  match v with
  | VNone => "null"
  | VBool b => if b then "true" else "false"
  | VInt n => NilEmpty.string_of_int (Z.to_int n)
  | VFloat lexeme => lexeme
  | VStr s => quote s
  | VList items => "[" +:+ String.concat ", " (map dumps items) +:+ "]"
  | VDict members =>
      "{" +:+ String.concat ", "
                (map_fold (fun key v acc => (quote key +:+ ": " +:+ dumps v) :: acc)
                          [] members)
      +:+ "}"
  end.

End Json.

(** ** Exceptions and results *)

(** [ClientError] is the client's own exception; its argument is
    whatever the raising site passes.  The others are raised by the
    interpreter and the standard library, which word the text: an
    [AttributeError] for the type of the object and the attribute it
    lacks, a [TypeError] for the type of a value that is no container,
    a [TypeError] for the argument that received two values, the
    [RecursionError] of [json.loads] on a text nested too deep, and the
    two [RuntimeError]s of [asyncio] for a closed loop and for a future
    awaited on another loop than its own. *)
Inductive exception : Type :=
  | ClientError (message : value)
  | AttributeError (object_type attribute : string)
  | TypeError_not_iterable (object_type : string)
  | TypeError_multiple_values (argument : string)
  | RecursionError (message : string)
  | RuntimeError_loop_closed
  | RuntimeError_different_loop.

Inductive outcome : Type :=
  | Return (v : value)
  | Raise (e : exception).

(** An operation that raises makes the enclosing function raise. *)
Notation "'let?' x := e 'in' k" :=
  (match e with
   | inl err => Raise err
   | inr x => k
   end)
  (at level 10, x name, e at level 100, k at level 200, only parsing).

(** ** The platform under the client

    What the standard library and the network do for the client:
    serialisation, TLS set-up, the HTTP round trip and [asyncio]'s
    loops.  A failure is the text [str(e)] of the exception raised. *)

Inductive VerifyMode : Type := CERT_NONE | CERT_REQUIRED.

Record SSLContext : Type := {
  loaded_cafile : option string;
  check_hostname : bool;
  verify_mode : VerifyMode
}.

(** A [urllib.request.Request]: [headers] is its dict of the same
    name, keyed by the capitalised header names. *)
Record Request : Type := {
  full_url : string;
  headers : gmap string string;
  data : string
}.

(** How [json.loads] fails: with a [ValueError] (a [JSONDecodeError]),
    which carries a description, or with a [RecursionError]. *)
Inductive loads_failure : Type :=
  | ValueError (description : string)
  | TooDeep (message : string).

Inductive Loop : Type := LoopId (n : nat).

Record Platform : Type := {
  (** [json.dumps]; [inl] is the text of the exception it raises *)
  json_dumps : value -> string + string;
  (** [json.loads] *)
  json_loads : string -> loads_failure + value;
  (** the exception [http.Request] raises for this URL, if any *)
  request_error : string -> option string;
  (** [ssl.create_default_context(cafile=...)] *)
  create_default_context : option string -> string + SSLContext;
  (** [http.urlopen(request, context=...).read()] *)
  urlopen_read : Request -> SSLContext -> string + string;
  (** [asyncio.get_event_loop()]; [None] is a [RuntimeError] *)
  get_event_loop : option Loop;
  (** [asyncio.new_event_loop()] *)
  new_event_loop : Loop
}.

(** [str.encode()]: UTF-8, one byte for a code point below 128 and
    two bytes for the others of the range covered. *)
Definition utf8 (c : ascii) : string :=
  if (Str.code c <? 128)%N then String c EmptyString
  else String (ascii_of_N (192 + Str.code c / 64))
         (String (ascii_of_N (128 + Str.code c mod 64)) EmptyString).

Fixpoint encode (s : string) : string :=
  match s with
  | EmptyString => EmptyString
  | String c rest => utf8 c +:+ encode rest
  end.

(** [bytes.decode()] of ASCII bytes, the identity.  It is applied to
    base64 text, which is ASCII, and to the response, whose decoding
    and loading the platform's [json_loads] stands for together when
    the response has other bytes. *)
Definition decode (b : string) : string := b.

(** [str.lower()] and [str.capitalize()] on ASCII text: the latter
    upper-cases the first character and lower-cases the rest. *)
Fixpoint lower (s : string) : string :=
  match s with
  | EmptyString => EmptyString
  | String c rest => String (Str.to_lower c) (lower rest)
  end.

Definition capitalize (s : string) : string :=
  match s with
  | EmptyString => EmptyString
  | String c rest => String (Str.to_upper c) (lower rest)
  end.

(** The items of the dict a display builds, in the order of the
    dict: a repeated key keeps its first place and takes the last
    value. *)
Fixpoint dict_set {V : Type} (key : string) (v : V) (items : list (string * V))
  : list (string * V) :=
  match items with
  | [] => [(key, v)]
  | (key', v') :: rest =>
      if String.eqb key' key then (key', v) :: rest
      else (key', v') :: dict_set key v rest
  end.

Definition dict_items {V : Type} (entries : list (string * V)) : list (string * V) :=
  foldl (fun items entry => dict_set entry.1 entry.2 items) [] entries.

(** [http.Request(url, headers=..., data=...)], once the URL is
    accepted: each item of [headers], in the order of the dict, is
    stored under its capitalised name, a later item replacing an
    earlier one stored under the same name. *)
Definition http_Request (url : string) (header_items : list (string * string))
    (data : string) : Request :=
  {| full_url := url;
     headers := foldl (fun stored item => <[capitalize item.1 := item.2]> stored)
                      ∅ header_items;
     data := data |}.

(** ** The client object *)

(** The instance attributes.  [_event_loop] is [None] when the
    constructor has not bound the attribute. *)
Record Client : Type := {
  _url : string;
  _username : string;
  _password : string;
  _auth_header : string;
  _cafile : option string;
  _insecure : bool;
  _user_agent : string;
  _ignore_hostname_verification : bool;
  _event_loop : option Loop
}.

(** [body.get(key)], for whatever [body] is. *)
Definition get (body : value) (key : string) : exception + value :=
  match body with
  | VDict members =>
      match members !! key with
      | Some v => inr v
      | None => inr VNone
      end
  | _ => inl (AttributeError (type_name body) "get")
  end.

(** [key in body], for a string [key]: a key of a dict, an element
    of a list, a substring of a string; the other values are no
    containers. *)
Definition contains (key : string) (body : value) : exception + bool :=
  match body with
  | VDict members => inr (bool_decide (is_Some (members !! key)))
  | VList items =>
      inr (existsb (fun item => match item with
                                | VStr s => String.eqb s key
                                | _ => false
                                end) items)
  | VStr s => inr (Str.has_substring key s)
  | _ => inl (TypeError_not_iterable (type_name body))
  end.

(** What a call has done when it ends: the requests handed to the
    network, in order, and the value returned or the exception
    raised. *)
Record completed : Type := {
  sent : list Request;
  result : outcome
}.

Definition raised (e : exception) : completed :=
  {| sent := []; result := Raise e |}.

(** What awaiting the coroutine of an asynchronous call gives: the
    loop whose executor ran the job, when one was submitted, and the
    completion of the call. *)
Record awaited : Type := {
  submitted_to : option Loop;
  completion : completed
}.



(** The function objects [__getattr__] returns. *)
Inductive function : Type :=
  | Function (call : list value -> gmap string value -> completed)
  | CoroutineFunction (call : list value -> gmap string value -> awaited).

Section WithPlatform.

Context (P : Platform).

(** [Client.__init__].  The attribute [_event_loop] is bound in the
    [if not loop:] branch only. *)
Definition __init__ (url username password auth_header : string)
    (cafile : option string) (insecure ignore_hostname_verification : bool)
    (user_agent : string) (loop : option Loop) : Client :=
  {| _url := url;
     _username := username;
     _password := password;
     _auth_header := auth_header;
     _cafile := cafile;
     _insecure := insecure;
     _user_agent := user_agent;
     _ignore_hostname_verification := ignore_hostname_verification;
     _event_loop :=
       match loop with
       | None =>
           match get_event_loop P with
           | Some current => Some current
           | None => Some (new_event_loop P)
           end
       | Some _ => None
       end |}.

(** [_parse_response].  Only the [ValueError] of [json.loads] is
    caught by the handler; its [RecursionError], and what the
    membership test and the two [get] calls raise, leave the function
    as they are. *)
Definition _parse_response (response : string) : outcome :=
  if String.eqb response EmptyString then
    Raise (ClientError (VStr "Empty response from server"))
  else
    match json_loads P (decode response) with
    | inl (ValueError e) =>
        Raise (ClientError (VStr ("Failed to parse JSON response: " +:+ e)))
    | inl (TooDeep message) => Raise (RecursionError message)
    | inr body =>
        let? has_error := contains "error" body in
        if has_error then
          let? error := get body "error" in
          let? message := get error "message" in
          Raise (ClientError message)
        else
          let? result := get body "result" in
          Return result
    end.

(** The TLS context of [_do_request]. *)
Definition configure (self : Client) (ssl_context : SSLContext) : SSLContext :=
  let ssl_context :=
    if _insecure self
    then {| loaded_cafile := loaded_cafile ssl_context;
            check_hostname := false;
            verify_mode := CERT_NONE |}
    else ssl_context in
  if _ignore_hostname_verification self
  then {| loaded_cafile := loaded_cafile ssl_context;
          check_hostname := false;
          verify_mode := verify_mode ssl_context |}
  else ssl_context.

(** [_do_request]: every exception of the [try] block becomes a
    [ClientError] with its text, be it raised by [json.dumps], by
    [http.Request], by [ssl.create_default_context] or by the round
    trip, in that order; the response is parsed outside the block.
    [headers] are the items of the dict, in its order. *)
Definition _do_request (self : Client) (headers : list (string * string)) (body : value)
  : completed :=
  match json_dumps P body with
  | inl e => {| sent := []; result := Raise (ClientError (VStr e)) |}
  | inr text =>
      match request_error P (_url self) with
      | Some e => {| sent := []; result := Raise (ClientError (VStr e)) |}
      | None =>
          let request := http_Request (_url self) headers (encode text) in
          match create_default_context P (_cafile self) with
          | inl e => {| sent := []; result := Raise (ClientError (VStr e)) |}
          | inr ssl_context =>
              match urlopen_read P request (configure self ssl_context) with
              | inl e => {| sent := [request]; result := Raise (ClientError (VStr e)) |}
              | inr response => {| sent := [request]; result := _parse_response response |}
              end
          end
      end
  end.

(** The [payload] and [headers] of [execute]. *)
Definition payload (method : string) (kwargs : gmap string value) : gmap string value :=
  dict_literal [("id", VInt 1); ("jsonrpc", VStr "2.0");
                ("method", VStr method); ("params", VDict kwargs)].

Definition credentials (self : Client) : string :=
  Base64.b64encode (encode (_username self +:+ ":" +:+ _password self)).

Definition auth_header_prefix (self : Client) : string :=
  if String.eqb (_auth_header self) DEFAULT_AUTH_HEADER then "Basic " else EmptyString.

(** The entries of the display [headers = {...}], the dict it
    builds as a map, and the items of that dict in its order. *)
Definition header_entries (self : Client) : list (string * string) :=
  [(_auth_header self, auth_header_prefix self +:+ decode (credentials self));
   ("Content-Type", "application/json");
   ("User-Agent", _user_agent self)].

Definition request_headers (self : Client) : gmap string string :=
  dict_literal (header_entries self).

Definition header_items (self : Client) : list (string * string) :=
  dict_items (header_entries self).

Definition execute (self : Client) (method : string) (kwargs : gmap string value) : completed :=
  _do_request self (header_items self) (VDict (payload method kwargs)).

(** The bound method [self.execute] applied to the keywords
    [method=...] and [kwargs]: a keyword named [self] collides with
    the receiver. *)
Definition apply_execute (self : Client) (method : string) (kwargs : gmap string value) : completed :=
  match kwargs !! "self" with
  | Some _ => raised (TypeError_multiple_values "self")
  | None => execute self method kwargs
  end.

(** [self.execute(method=method, **kwargs)]: a keyword [method]
    among [kwargs] is a second value for it. *)
Definition call_execute (self : Client) (method : string) (kwargs : gmap string value) : completed :=
  match kwargs !! "method" with
  | Some _ => raised (TypeError_multiple_values "method")
  | None => apply_execute self method kwargs
  end.

(** [await self._event_loop.run_in_executor(None,
    functools.partial(self.execute, method=method, **kwargs))].
    [self._event_loop] is looked up first; when the instance has no
    such attribute the lookup falls to [__getattr__("_event_loop")],
    which returns a plain function, and that has no
    [run_in_executor].  Then the partial object is built, where a
    keyword [method] among [kwargs] is a second value for it; the
    executor of the loop calls it.  This is the coroutine awaited on
    the client's own loop, the loop being open; [run_in_executor_on]
    below is the coroutine awaited on any loop. *)
Definition run_in_executor (self : Client) (method : string) (kwargs : gmap string value) : awaited :=
  match _event_loop self with
  | None =>
      {| submitted_to := None;
         completion := raised (AttributeError "function" "run_in_executor") |}
  | Some loop =>
      match kwargs !! "method" with
      | Some _ =>
          {| submitted_to := None;
             completion := raised (TypeError_multiple_values "method") |}
      | None =>
          {| submitted_to := Some loop;
             completion := apply_execute self method kwargs |}
      end
  end.



(** The inner [function] of the synchronous branch. *)
Definition sync_function (self : Client) (name : string)
    (args : list value) (kwargs : gmap string value) : completed :=
  call_execute self (_to_camel_case name) kwargs.

(** The inner [async def function] of the asynchronous branch. *)
Definition async_function (self : Client) (name : string)
    (args : list value) (kwargs : gmap string value) : awaited :=
  run_in_executor self (_to_camel_case (get_funcname_from_async_name name)) kwargs.

Definition __getattr__ (self : Client) (name : string) : function :=
  if is_async_method_name name
  then CoroutineFunction (async_function self name)
  else Function (sync_function self name).

End WithPlatform.

(** ** A platform to run the client on

    The decoder and serialiser above, a default TLS context that
    always loads, a loop already running, and a server that answers
    every request with the same [reply]. *)

Module Canned.

Definition current_loop : Loop := LoopId 0.
Definition fresh_loop : Loop := LoopId 1.

Definition platform (reply : string + string) : Platform :=
  {| json_dumps := fun v => inr (Json.dumps v);
     json_loads := fun text => match Json.loads text with
                               | inl description => inl (ValueError description)
                               | inr v => inr v
                               end;
     request_error := fun _ => None;
     create_default_context := fun cafile =>
       inr {| loaded_cafile := cafile; check_hostname := true; verify_mode := CERT_REQUIRED |};
     urlopen_read := fun _ _ => reply;
     get_event_loop := Some current_loop;
     new_event_loop := fresh_loop |}.

(** [Client(url=..., username="jsonrpc", password="token", loop=loop)] *)
Definition client (loop : option Loop) : Client :=
  __init__ (platform (inr EmptyString)) "http://localhost/jsonrpc.php" "jsonrpc" "token"
           DEFAULT_AUTH_HEADER None false false "Kanboard Python API Client" loop.

(** Response bodies: [{"result": 42}], [{"error": {"message": "Not
    found"}}] and [{"error": "Not found"}]. *)
Definition body_result : string :=
  "{" +:+ Json.quote "result" +:+ ": 42}".

Definition body_error_object : string :=
  "{" +:+ Json.quote "error" +:+ ": {" +:+ Json.quote "message" +:+ ": "
      +:+ Json.quote "Not found" +:+ "}}".

Definition body_error_text : string :=
  "{" +:+ Json.quote "error" +:+ ": " +:+ Json.quote "Not found" +:+ "}".

End Canned.

(** Calling the function [__getattr__] returned, and awaiting the
    coroutine when it is a coroutine function. *)
Definition invoke (f : function) (args : list value) (kwargs : gmap string value) : awaited :=
  match f with
  | Function call => {| submitted_to := None; completion := call args kwargs |}
  | CoroutineFunction call => call args kwargs
  end.

(** ** The wire name as the specification words it

    Split on the separator, keep the first segment, upper-case the
    first letter of each later segment and leave the rest of the
    segment as it is, concatenate. *)

Definition capitalize_first (segment : string) : string :=
  match segment with
  | EmptyString => EmptyString
  | String c rest => String (Str.to_upper c) rest
  end.

Definition wire_name_spec (identifier : string) : string :=
  match Str.split "_" identifier with
  | [] => EmptyString
  | first :: others => first +:+ Str.join (map capitalize_first others)
  end.

Fixpoint all_chars (p : ascii -> bool) (s : string) : bool :=
  match s with
  | EmptyString => true
  | String c rest => p c && all_chars p rest
  end.

(** Word-separated lowercase form: lowercase letters and digits,
    with underscores between the words. *)
Definition snake_char (c : ascii) : bool :=
  Str.is_lower c || Str.is_digit c || Ascii.eqb c "_".

Definition lowercase_form (identifier : string) : bool :=
  all_chars snake_char identifier.

(** The characters of a segment: those of the form other than the
    separator. *)
Definition word_char (c : ascii) : bool := snake_char c && negb (Ascii.eqb c "_").

(** No letter of the segment comes directly after a digit. *)
Fixpoint no_letter_after_digit (after_digit : bool) (segment : string) : bool :=
  match segment with
  | EmptyString => true
  | String c rest =>
      negb (after_digit && Str.is_cased c) && no_letter_after_digit (Str.is_digit c) rest
  end.

Definition later_segments_settled (identifier : string) : bool :=
  forallb (no_letter_after_digit false) (tail (Str.split "_" identifier)).

(** ** Further notions the properties speak of *)

Definition not_separator (c : ascii) : bool := negb (Ascii.eqb c "_").

(** Text of code points below 128, and the number of the others in
    a text. *)
Definition is_ascii (s : string) : bool :=
  all_chars (fun c => (Str.code c <? 128)%N) s.

Fixpoint non_ascii (s : string) : nat :=
  match s with
  | EmptyString => 0
  | String c rest => (if (Str.code c <? 128)%N then 0 else 1) + non_ascii rest
  end.

Definition letter_or_separator (c : ascii) : bool :=
  Str.is_cased c || Ascii.eqb c "_".

(** [s.count(c)] for a character. *)
Fixpoint count_char (c : ascii) (s : string) : nat :=
  match s with
  | EmptyString => 0
  | String c' rest => (if Ascii.eqb c' c then 1 else 0) + count_char c rest
  end.

Fixpoint total_length (pieces : list string) : nat :=
  match pieces with
  | [] => 0
  | piece :: rest => String.length piece + total_length rest
  end.


(** The two attributes of an [ssl.SSLContext] as their setters
    behave: enabling [check_hostname] on a context that verifies
    nothing switches verification on, and [verify_mode] refuses
    [CERT_NONE] while [check_hostname] is enabled, with a
    [ValueError]. *)
Module Ssl.

Definition set_check_hostname (ctx : SSLContext) (enabled : bool) : SSLContext :=
  {| loaded_cafile := loaded_cafile ctx;
     check_hostname := enabled;
     verify_mode := match enabled, verify_mode ctx with
                    | true, CERT_NONE => CERT_REQUIRED
                    | _, mode => mode
                    end |}.

Definition set_verify_mode (ctx : SSLContext) (mode : VerifyMode) : string + SSLContext :=
  match mode, check_hostname ctx with
  | CERT_NONE, true =>
      inl "Cannot set verify_mode to CERT_NONE when check_hostname is enabled."
  | _, _ =>
      inr {| loaded_cafile := loaded_cafile ctx;
             check_hostname := check_hostname ctx;
             verify_mode := mode |}
  end.

(** A context as [ssl] keeps it: host names are checked only where
    certificates are. *)
Definition consistent (ctx : SSLContext) : Prop :=
  check_hostname ctx = true -> verify_mode ctx = CERT_REQUIRED.

End Ssl.

(** The assignments of [_do_request] to the context, one after the
    other: [check_hostname] then [verify_mode] under [_insecure],
    [check_hostname] under [_ignore_hostname_verification]. *)
Definition configure_stepwise (self : Client) (ssl_context : SSLContext) : string + SSLContext :=
  match (if _insecure self
         then Ssl.set_verify_mode (Ssl.set_check_hostname ssl_context false) CERT_NONE
         else inr ssl_context) with
  | inl e => inl e
  | inr ssl_context' =>
      inr (if _ignore_hostname_verification self
           then Ssl.set_check_hostname ssl_context' false
           else ssl_context')
  end.

(** The characters of a base64 text: the digits of the alphabet
    and the padding. *)
Definition base64_char (c : ascii) : bool :=
  (0 <? count_char c Base64.alphabet)%nat || Ascii.eqb c "=".

(** * Properties *)

(** ** Characters *)

Lemma lower_not_upper c : Str.is_lower c = true -> Str.is_upper c = false.
Proof.
  unfold Str.is_lower, Str.is_upper.
  rewrite andb_true_iff, andb_false_iff, !N.leb_le, !N.leb_gt. lia.
Qed.

Lemma digit_not_cased c : Str.is_digit c = true -> Str.is_cased c = false.
Proof.
  unfold Str.is_digit, Str.is_cased, Str.is_lower, Str.is_upper.
  rewrite andb_true_iff, orb_false_iff, !andb_false_iff, !N.leb_le, !N.leb_gt. lia.
Qed.

Lemma lower_cased c : Str.is_lower c = true -> Str.is_cased c = true.
Proof. unfold Str.is_cased. intros ->. reflexivity. Qed.

Lemma lower_not_digit c : Str.is_lower c = true -> Str.is_digit c = false.
Proof.
  intros Hl. destruct (Str.is_digit c) eqn:Hd; [|reflexivity].
  apply digit_not_cased in Hd. apply lower_cased in Hl. congruence.
Qed.

Lemma to_lower_lower c : Str.is_lower c = true -> Str.to_lower c = c.
Proof. intros H. unfold Str.to_lower. rewrite (lower_not_upper _ H). reflexivity. Qed.

Lemma to_lower_digit c : Str.is_digit c = true -> Str.to_lower c = c.
Proof.
  intros H. apply digit_not_cased in H. unfold Str.is_cased in H.
  apply orb_false_iff in H as [_ H]. unfold Str.to_lower. rewrite H. reflexivity.
Qed.

Lemma to_upper_digit c : Str.is_digit c = true -> Str.to_upper c = c.
Proof.
  intros H. apply digit_not_cased in H. unfold Str.is_cased in H.
  apply orb_false_iff in H as [H _]. unfold Str.to_upper. rewrite H. reflexivity.
Qed.

(** ** [split] and [title] *)

Lemma split_nonempty sep s : Str.split sep s <> [].
Proof.
  destruct s as [|c rest]; simpl; [discriminate|].
  destruct (Ascii.eqb c sep); [discriminate|].
  destruct (Str.split sep rest); discriminate.
Qed.

(** The pieces are made of characters of the input other than the
    separator. *)
Lemma split_pieces (p : ascii -> bool) sep s :
  all_chars p s = true ->
  Forall (fun piece => all_chars (fun c => p c && negb (Ascii.eqb c sep)) piece = true)
         (Str.split sep s).
Proof.
  induction s as [|c rest IH]; simpl; intros H.
  - repeat constructor.
  - apply andb_true_iff in H as [Hc Hrest]. specialize (IH Hrest).
    destruct (Ascii.eqb c sep) eqn:E.
    + constructor; [reflexivity|exact IH].
    + destruct (Str.split sep rest) as [|piece pieces].
      * repeat constructor. simpl. rewrite Hc, E. reflexivity.
      * inversion IH; subst. constructor; [|assumption].
        simpl. rewrite Hc, E. simpl. assumption.
Qed.

Lemma word_char_cases c :
  word_char c = true ->
  (Str.is_lower c = true /\ Str.is_digit c = false) \/
  (Str.is_digit c = true /\ Str.is_cased c = false).
Proof.
  unfold word_char, snake_char. intros H.
  apply andb_true_iff in H as [H Hne].
  destruct (Str.is_lower c) eqn:Hl.
  - left. split; [reflexivity|]. apply lower_not_digit. assumption.
  - destruct (Str.is_digit c) eqn:Hd.
    + right. split; [reflexivity|]. apply digit_not_cased. assumption.
    + simpl in H. rewrite H in Hne. discriminate.
Qed.

(** Inside a word of lowercase letters and digits where no letter
    comes after a digit, [title] changes nothing past the first
    character. *)
Lemma title_from_settled segment :
  forall after_digit,
    all_chars word_char segment = true ->
    no_letter_after_digit after_digit segment = true ->
    Str.title_from (negb after_digit) segment = segment.
Proof.
  induction segment as [|c rest IH]; intros after_digit Hchars Hsettled; [reflexivity|].
  simpl in *.
  apply andb_true_iff in Hchars as [Hc Hrest].
  apply andb_true_iff in Hsettled as [Hhere Hnext].
  destruct (word_char_cases c Hc) as [[Hl Hd]|[Hd Hcased]].
  - rewrite (lower_cased c Hl) in *. rewrite andb_true_r in Hhere.
    apply negb_true_iff in Hhere. subst after_digit. simpl.
    rewrite (to_lower_lower c Hl). f_equal.
    rewrite Hd in Hnext. exact (IH false Hrest Hnext).
  - rewrite Hcased. rewrite Hd in Hnext.
    rewrite (to_lower_digit c Hd), (to_upper_digit c Hd).
    destruct (negb after_digit); f_equal; exact (IH true Hrest Hnext).
Qed.

Lemma title_capitalizes segment :
  all_chars word_char segment = true ->
  no_letter_after_digit false segment = true ->
  Str.title segment = capitalize_first segment.
Proof.
  destruct segment as [|c rest]; [reflexivity|].
  unfold Str.title. simpl. intros Hchars Hsettled.
  apply andb_true_iff in Hchars as [Hc Hrest]. f_equal.
  destruct (word_char_cases c Hc) as [[Hl Hd]|[Hd Hcased]].
  - rewrite (lower_cased c Hl). rewrite Hd in Hsettled.
    exact (title_from_settled rest false Hrest Hsettled).
  - rewrite Hcased. rewrite Hd in Hsettled.
    exact (title_from_settled rest true Hrest Hsettled).
Qed.

(** C1, as stated, fails: in [get_md5sum] the letter after the digit
    is upper-cased too, so the rest of the segment [md5sum] is not
    left unchanged. *)
Lemma C1_title_changes_rest_of_segment :
  lowercase_form "get_md5sum" = true /\
  wire_name_spec "get_md5sum" = "getMd5sum" /\
  _to_camel_case "get_md5sum" = "getMd5Sum" /\
  _to_camel_case "get_md5sum" <> wire_name_spec "get_md5sum".
Proof. repeat split; try reflexivity. discriminate. Qed.

(** C1, amended: for every identifier of lowercase letters, digits and
    underscores in which, after the first segment, no letter comes
    directly after a digit, [_to_camel_case] splits on the underscore,
    keeps the first segment, upper-cases the first letter of each later
    segment, leaves the rest of that segment unchanged and
    concatenates; [create_project] gives [createProject], [get_me]
    gives [getMe] and [ping] stays [ping]. *)
Theorem C1_to_camel_case_wire_name :
  forall identifier,
    lowercase_form identifier = true ->
    later_segments_settled identifier = true ->
    _to_camel_case identifier = wire_name_spec identifier /\
    _to_camel_case "create_project" = "createProject" /\
    _to_camel_case "get_me" = "getMe" /\
    _to_camel_case "ping" = "ping".
Proof.
  intros identifier Hform Hsettled.
  split; [|repeat split; reflexivity].
  unfold _to_camel_case, wire_name_spec, later_segments_settled in *.
  pose proof (split_pieces snake_char "_" identifier Hform) as Hpieces.
  destruct (Str.split "_" identifier) as [|first others]; [reflexivity|].
  f_equal. f_equal. simpl in Hsettled.
  inversion Hpieces as [|? ? _ Hothers]; subst. clear Hpieces.
  induction others as [|segment others IH]; [reflexivity|].
  simpl in *. apply andb_true_iff in Hsettled as [Hseg Hrest].
  inversion Hothers; subst.
  rewrite title_capitalizes by assumption.
  f_equal. apply IH; assumption.
Qed.

Lemma C1_to_camel_case_wire_name_witness :
  _to_camel_case "get_oauth2_token_by_id" = wire_name_spec "get_oauth2_token_by_id" /\
  _to_camel_case "create_project" = "createProject" /\
  _to_camel_case "get_me" = "getMe" /\
  _to_camel_case "ping" = "ping".
Proof.
  apply (C1_to_camel_case_wire_name "get_oauth2_token_by_id"); reflexivity.
Defined.

(** ** Suffixes and slices *)

Lemma length_append a b :
  String.length (a +:+ b) = String.length a + String.length b.
Proof. induction a as [|c a IH]; simpl; [reflexivity|]. rewrite IH. reflexivity. Qed.

Lemma substring_whole b : substring 0 (String.length b) b = b.
Proof. induction b as [|c b IH]; simpl; [reflexivity|]. rewrite IH. reflexivity. Qed.

Lemma substring_skip a b m :
  substring (String.length a) m (a +:+ b) = substring 0 m b.
Proof. induction a as [|c a IH]; simpl; [reflexivity|]. exact IH. Qed.

Lemma substring_take a b : substring 0 (String.length a) (a +:+ b) = a.
Proof.
  induction a as [|c a IH]; simpl.
  - destruct b; reflexivity.
  - rewrite IH. reflexivity.
Qed.

Lemma substring_cut n :
  forall s, n <= String.length s ->
    substring 0 n s +:+ substring n (String.length s - n) s = s.
Proof.
  induction n as [|n IH]; intros s Hn.
  - rewrite Nat.sub_0_r, substring_whole. destruct s; reflexivity.
  - destruct s as [|c s]; simpl in *; [lia|].
    change (String c (substring 0 n s +:+ substring n (String.length s - n) s) = String c s).
    f_equal. apply IH. lia.
Qed.

Lemma endswith_iff s suffix :
  Str.endswith s suffix = true <-> exists base, s = base +:+ suffix.
Proof.
  unfold Str.endswith. rewrite andb_true_iff, Nat.leb_le, String.eqb_eq. split.
  - intros [Hle Hsub].
    exists (substring 0 (String.length s - String.length suffix) s).
    pose proof (substring_cut (String.length s - String.length suffix) s) as Hcut.
    replace (String.length s - (String.length s - String.length suffix))
      with (String.length suffix) in Hcut by lia.
    rewrite Hsub in Hcut. symmetry. apply Hcut. lia.
  - intros [base ->]. rewrite length_append. split; [lia|].
    replace (String.length base + String.length suffix - String.length suffix)
      with (String.length base) by lia.
    rewrite substring_skip. apply substring_whole.
Qed.

Lemma get_funcname_strips_marker base :
  get_funcname_from_async_name (base +:+ ASYNC_FUNCNAME_MARKER) = base.
Proof.
  unfold get_funcname_from_async_name, Str.slice_to.
  rewrite length_append.
  set (n := String.length base). set (k := String.length ASYNC_FUNCNAME_MARKER).
  replace (Z.of_nat (n + k) - Z.of_nat k)%Z with (Z.of_nat n) by lia.
  destruct (Z.ltb_spec (Z.of_nat n) 0); [lia|].
  rewrite Z.min_l by lia. rewrite Nat2Z.id.
  apply substring_take.
Qed.

(** C7: a name is resolved as asynchronous if and only if it ends
    with the marker [_async]; then [__getattr__] returns a coroutine
    function that submits the call under the wire name of the name
    without the marker, and otherwise a plain function that calls
    [execute] under the wire name of the whole name;
    [create_project_async] is asynchronous with wire name
    [createProject]. *)
Theorem C7_async_marker_resolution :
  forall (P : Platform) (self : Client) (name : string),
    (is_async_method_name name = true <->
       exists base, name = base +:+ ASYNC_FUNCNAME_MARKER) /\
    (forall base, name = base +:+ ASYNC_FUNCNAME_MARKER ->
       __getattr__ P self name =
         CoroutineFunction
           (fun _ kwargs => run_in_executor P self (_to_camel_case base) kwargs)) /\
    (is_async_method_name name = false ->
       __getattr__ P self name =
         Function (fun _ kwargs => call_execute P self (_to_camel_case name) kwargs)) /\
    __getattr__ P self "create_project_async" =
      CoroutineFunction (fun _ kwargs => run_in_executor P self "createProject" kwargs).
Proof.
  intros P self name. repeat split.
  - apply endswith_iff.
  - apply endswith_iff.
  - intros base ->. unfold __getattr__.
    replace (is_async_method_name (base +:+ ASYNC_FUNCNAME_MARKER)) with true
      by (symmetry; apply endswith_iff; eauto).
    unfold async_function. rewrite get_funcname_strips_marker. reflexivity.
  - intros Hsync. unfold __getattr__. rewrite Hsync. reflexivity.
Qed.

(** ** Requests *)

Lemma payload_literal (method : string) (kwargs : gmap string value) :
  payload method kwargs =
    {[ "id" := VInt 1; "jsonrpc" := VStr "2.0";
       "method" := VStr method; "params" := VDict kwargs ]}.
Proof.
  unfold payload, dict_literal. simpl.
  apply map_eq. intros key.
  destruct (decide (key = "id")) as [->|]; [reflexivity|].
  destruct (decide (key = "jsonrpc")) as [->|]; [reflexivity|].
  destruct (decide (key = "method")) as [->|]; [reflexivity|].
  destruct (decide (key = "params")) as [->|]; [reflexivity|].
  by simplify_map_eq.
Qed.

(** The steps of [execute], one lemma for each way the [try] block
    of [_do_request] can end. *)
Section Steps.

Variable P : Platform.
Variable self : Client.
Variable method : string.
Variable kwargs : gmap string value.

Lemma execute_unserialisable e :
  json_dumps P (VDict (payload method kwargs)) = inl e ->
  execute P self method kwargs = {| sent := []; result := Raise (ClientError (VStr e)) |}.
Proof. intros H. unfold execute, _do_request. rewrite H. reflexivity. Qed.

Lemma execute_url_refused text e :
  json_dumps P (VDict (payload method kwargs)) = inr text ->
  request_error P (_url self) = Some e ->
  execute P self method kwargs = {| sent := []; result := Raise (ClientError (VStr e)) |}.
Proof. intros Hd H. unfold execute, _do_request. rewrite Hd, H. reflexivity. Qed.

Lemma execute_context_refused text e :
  json_dumps P (VDict (payload method kwargs)) = inr text ->
  request_error P (_url self) = None ->
  create_default_context P (_cafile self) = inl e ->
  execute P self method kwargs = {| sent := []; result := Raise (ClientError (VStr e)) |}.
Proof. intros Hd Hurl H. unfold execute, _do_request. rewrite Hd, Hurl, H. reflexivity. Qed.

Lemma execute_round_trip text ssl_context :
  json_dumps P (VDict (payload method kwargs)) = inr text ->
  request_error P (_url self) = None ->
  create_default_context P (_cafile self) = inr ssl_context ->
  execute P self method kwargs =
    {| sent := [http_Request (_url self) (header_items self) (encode text)];
       result := match urlopen_read P
                         (http_Request (_url self) (header_items self) (encode text))
                         (configure self ssl_context) with
                 | inl e => Raise (ClientError (VStr e))
                 | inr response => _parse_response P response
                 end |}.
Proof.
  intros Hd Hurl Hctx. unfold execute, _do_request. rewrite Hd, Hurl, Hctx.
  destruct (urlopen_read P _ (configure self ssl_context)); reflexivity.
Qed.

(** [execute] hands at most one request to the network, the one
    built from the client's headers and the serialised payload. *)
Lemma execute_sent :
  sent (execute P self method kwargs) = [] \/
  exists text,
    json_dumps P (VDict (payload method kwargs)) = inr text /\
    sent (execute P self method kwargs) =
      [http_Request (_url self) (header_items self) (encode text)].
Proof.
  destruct (json_dumps P (VDict (payload method kwargs))) as [e|text] eqn:Hd.
  { left. rewrite (execute_unserialisable e Hd). reflexivity. }
  destruct (request_error P (_url self)) as [e|] eqn:Hurl.
  { left. rewrite (execute_url_refused text e Hd Hurl). reflexivity. }
  destruct (create_default_context P (_cafile self)) as [e|ssl_context] eqn:Hctx.
  { left. rewrite (execute_context_refused text e Hd Hurl Hctx). reflexivity. }
  right. exists text. split; [reflexivity|].
  rewrite (execute_round_trip text ssl_context Hd Hurl Hctx). reflexivity.
Qed.

End Steps.

(** C4: the payload [execute] builds for method [M] and keywords [K]
    is exactly the mapping of [id] to 1, [jsonrpc] to ["2.0"],
    [method] to [M] and [params] to [K], whatever the call; once the
    payload is serialised, the URL accepted and the TLS context
    created, [execute] hands to the network exactly one request, to
    the client's URL and with the serialisation of that payload as
    data, and its result is decided by the answer to that request; it
    never hands over a request with other data. *)
Theorem C4_request_envelope :
  forall (P : Platform) (self : Client) (M : string) (K : gmap string value),
    payload M K =
      {[ "id" := VInt 1; "jsonrpc" := VStr "2.0"; "method" := VStr M; "params" := VDict K ]} /\
    payload M K !! "id" = Some (VInt 1) /\
    payload M K !! "jsonrpc" = Some (VStr "2.0") /\
    payload M K !! "method" = Some (VStr M) /\
    payload M K !! "params" = Some (VDict K) /\
    dom (payload M K) = {[ "id"; "jsonrpc"; "method"; "params" ]} /\
    (forall text ssl_context,
       json_dumps P (VDict (payload M K)) = inr text ->
       request_error P (_url self) = None ->
       create_default_context P (_cafile self) = inr ssl_context ->
       exists request,
         full_url request = _url self /\
         data request = encode text /\
         execute P self M K =
           {| sent := [request];
              result := match urlopen_read P request (configure self ssl_context) with
                        | inl e => Raise (ClientError (VStr e))
                        | inr response => _parse_response P response
                        end |}) /\
    (sent (execute P self M K) = [] \/
     exists text request,
       json_dumps P (VDict (payload M K)) = inr text /\
       data request = encode text /\
       sent (execute P self M K) = [request]).
Proof.
  intros P self M K.
  split; [apply payload_literal|].
  do 5 (split; [reflexivity|]).
  split.
  - intros text ssl_context Hd Hurl Hctx.
    exists (http_Request (_url self) (header_items self) (encode text)).
    repeat split. apply execute_round_trip; assumption.
  - destruct (execute_sent P self M K) as [Hnone|[text [Hd Hone]]]; [left; exact Hnone|].
    right. exists text, (http_Request (_url self) (header_items self) (encode text)).
    repeat split; assumption.
Qed.

Lemma C4_request_envelope_witness :
  exists request,
    full_url request = "http://localhost/jsonrpc.php" /\
    data request =
      encode (Json.dumps
                (VDict {[ "id" := VInt 1; "jsonrpc" := VStr "2.0";
                          "method" := VStr "createProject";
                          "params" := VDict {[ "name" := VStr "My project" ]} ]})) /\
    execute (Canned.platform (inr Canned.body_result)) (Canned.client None)
            "createProject" {[ "name" := VStr "My project" ]} =
      {| sent := [request]; result := Return (VInt 42) |}.
Proof.
  pose proof (C4_request_envelope (Canned.platform (inr Canned.body_result))
                (Canned.client None) "createProject" {[ "name" := VStr "My project" ]})
    as [Hpayload [_ [_ [_ [_ [_ [Hexecute _]]]]]]].
  rewrite <- Hpayload.
  exact (Hexecute _ _ eq_refl eq_refl eq_refl).
Defined.

(** ** The authentication header *)

Lemma capitalize_differs H name : capitalize H <> capitalize name -> H <> name.
Proof. intros Hne ->. apply Hne. reflexivity. Qed.

Section Headers.

Variable self : Client.

(** The entry of the configured header survives the two fixed
    entries written after it when its name is neither of theirs. *)
Lemma auth_header_entry :
  _auth_header self <> "Content-Type" ->
  _auth_header self <> "User-Agent" ->
  request_headers self !! _auth_header self =
    Some (auth_header_prefix self +:+ Base64.b64encode
            (encode (_username self +:+ ":" +:+ _password self))).
Proof.
  intros Hct Hua. unfold request_headers, header_entries, dict_literal. simpl.
  rewrite lookup_insert_ne by congruence.
  rewrite lookup_insert_ne by congruence.
  apply lookup_insert_eq.
Qed.

(** The items of the headers when the configured name is neither of
    the fixed ones. *)
Lemma header_items_distinct :
  _auth_header self <> "Content-Type" ->
  _auth_header self <> "User-Agent" ->
  header_items self = header_entries self.
Proof.
  intros Hct Hua. unfold header_items, header_entries, dict_items. simpl.
  apply String.eqb_neq in Hct, Hua. rewrite Hct. simpl. rewrite Hua. reflexivity.
Qed.

(** In the request, the configured header is stored under its
    capitalised name and survives when that name is neither of the
    capitalised fixed ones. *)
Lemma stored_auth_header url data :
  capitalize (_auth_header self) <> "Content-type" ->
  capitalize (_auth_header self) <> "User-agent" ->
  headers (http_Request url (header_items self) data) !! capitalize (_auth_header self) =
    Some (auth_header_prefix self +:+ Base64.b64encode
            (encode (_username self +:+ ":" +:+ _password self))).
Proof.
  intros Hct Hua.
  rewrite header_items_distinct
    by (apply capitalize_differs; assumption).
  unfold http_Request, header_entries. cbn [foldl headers fst snd].
  change (capitalize "User-Agent") with "User-agent".
  change (capitalize "Content-Type") with "Content-type".
  rewrite lookup_insert_ne by congruence.
  rewrite lookup_insert_ne by congruence.
  apply lookup_insert_eq.
Qed.

End Headers.

(** C5, as stated, fails: a client configured with the header name
    [Content-Type] sends no credentials under that name, the fixed
    entry written later in the same dict display replaces them, in the
    dict and so in the request. *)
Lemma C5_fixed_header_replaces_credentials :
  let self := {| _url := "http://localhost/jsonrpc.php";
                 _username := "jsonrpc"; _password := "token";
                 _auth_header := "Content-Type";
                 _cafile := None; _insecure := false;
                 _user_agent := "Kanboard Python API Client";
                 _ignore_hostname_verification := false;
                 _event_loop := None |} in
  _auth_header self <> DEFAULT_AUTH_HEADER /\
  request_headers self !! _auth_header self = Some "application/json" /\
  request_headers self !! _auth_header self
    <> Some (Base64.b64encode (_username self +:+ ":" +:+ _password self)) /\
  headers (http_Request (_url self) (header_items self) EmptyString)
    = {[ "Content-type" := "application/json";
         "User-agent" := "Kanboard Python API Client" ]}.
Proof.
  repeat split; try reflexivity; discriminate.
Qed.

(** C5, amended: for every username [U], password [P] and header
    name [H] of ASCII characters whose capitalised form, the name
    [http.Request] stores it under, is neither [Content-type] nor
    [User-agent], the request handed to the network maps that
    capitalised name to ["Basic "] followed by the base64 text of the
    UTF-8 bytes of [U:P] when [H] is [Authorization], and to the bare
    base64 text when [H] is any other name; [execute] hands over no
    other request, and hands over this one once the payload is
    serialised, the URL accepted and the TLS context created. *)
Theorem C5_auth_header_value :
  forall (self : Client),
    is_ascii (_auth_header self) = true ->
    capitalize (_auth_header self) <> "Content-type" ->
    capitalize (_auth_header self) <> "User-agent" ->
    (_auth_header self = DEFAULT_AUTH_HEADER ->
       forall url data,
         headers (http_Request url (header_items self) data) !! capitalize (_auth_header self) =
           Some ("Basic " +:+ Base64.b64encode
                   (encode (_username self +:+ ":" +:+ _password self)))) /\
    (_auth_header self <> DEFAULT_AUTH_HEADER ->
       forall url data,
         headers (http_Request url (header_items self) data) !! capitalize (_auth_header self) =
           Some (Base64.b64encode (encode (_username self +:+ ":" +:+ _password self)))) /\
    (forall (P : Platform) (M : string) (K : gmap string value) (request : Request),
       request ∈ sent (execute P self M K) ->
       exists data, request = http_Request (_url self) (header_items self) data) /\
    (forall (P : Platform) (M : string) (K : gmap string value) text ssl_context,
       json_dumps P (VDict (payload M K)) = inr text ->
       request_error P (_url self) = None ->
       create_default_context P (_cafile self) = inr ssl_context ->
       sent (execute P self M K) =
         [http_Request (_url self) (header_items self) (encode text)]).
Proof.
  intros self _ Hct Hua.
  repeat split.
  - intros Hdefault url data. rewrite (stored_auth_header self url data Hct Hua).
    unfold auth_header_prefix.
    apply String.eqb_eq in Hdefault. rewrite Hdefault. reflexivity.
  - intros Hcustom url data. rewrite (stored_auth_header self url data Hct Hua).
    unfold auth_header_prefix.
    apply String.eqb_neq in Hcustom. rewrite Hcustom. reflexivity.
  - intros P M K request Hin.
    destruct (execute_sent P self M K) as [Hnone|[text [_ Hone]]].
    + rewrite Hnone in Hin. inversion Hin.
    + rewrite Hone in Hin. apply list_elem_of_singleton in Hin. eauto.
  - intros P M K text ssl_context Hd Hurl Hctx.
    rewrite (execute_round_trip P self M K text ssl_context Hd Hurl Hctx). reflexivity.
Qed.

Lemma C5_auth_header_value_witness :
  headers (http_Request "http://localhost/jsonrpc.php"
             (header_items (Canned.client None)) "{}") !! "Authorization"
    = Some "Basic anNvbnJwYzp0b2tlbg==".
Proof.
  exact (proj1 (C5_auth_header_value (Canned.client None)
                  eq_refl ltac:(discriminate) ltac:(discriminate))
               eq_refl "http://localhost/jsonrpc.php" "{}").
Defined.

(** ** Parsing the response *)

Section Parsing.

Variable P : Platform.
Variable response : string.
Hypothesis not_empty : response <> EmptyString.

Lemma parse_not_json description :
  json_loads P (decode response) = inl (ValueError description) ->
  _parse_response P response =
    Raise (ClientError (VStr ("Failed to parse JSON response: " +:+ description))).
Proof.
  intros Hloads. unfold _parse_response.
  apply String.eqb_neq in not_empty. rewrite not_empty, Hloads. reflexivity.
Qed.

(** An error member that is itself an object: the call raises
    [ClientError] with its [message] member, [None] without one. *)
Lemma parse_error_object body error :
  json_loads P (decode response) = inr (VDict body) ->
  body !! "error" = Some (VDict error) ->
  _parse_response P response = Raise (ClientError (default VNone (error !! "message"))).
Proof.
  intros Hloads Herror. unfold _parse_response.
  apply String.eqb_neq in not_empty. rewrite not_empty, Hloads. simpl.
  rewrite Herror. rewrite bool_decide_true by eauto. simpl.
  destruct (error !! "message"); reflexivity.
Qed.

(** No error member: the call returns the [result] member, [None]
    without one. *)
Lemma parse_result body :
  json_loads P (decode response) = inr (VDict body) ->
  body !! "error" = None ->
  _parse_response P response = Return (default VNone (body !! "result")).
Proof.
  intros Hloads Herror. unfold _parse_response.
  apply String.eqb_neq in not_empty. rewrite not_empty, Hloads. simpl.
  rewrite Herror. rewrite bool_decide_false by (intros [? ?]; discriminate). simpl.
  destruct (body !! "result"); reflexivity.
Qed.

End Parsing.

Lemma parse_empty P :
  _parse_response P EmptyString = Raise (ClientError (VStr "Empty response from server")).
Proof. reflexivity. Qed.

(** The result of [execute] once the round trip gave a response. *)
Lemma execute_parses P self method kwargs text ssl_context response :
  json_dumps P (VDict (payload method kwargs)) = inr text ->
  request_error P (_url self) = None ->
  create_default_context P (_cafile self) = inr ssl_context ->
  urlopen_read P (http_Request (_url self) (header_items self) (encode text))
               (configure self ssl_context) = inr response ->
  result (execute P self method kwargs) = _parse_response P response.
Proof.
  intros Hd Hurl Hctx Hread.
  rewrite (execute_round_trip P self method kwargs text ssl_context Hd Hurl Hctx).
  simpl. rewrite Hread. reflexivity.
Qed.

(** C8, as stated, fails: the text of the message starts with a
    capital letter. *)
Lemma C8_message_is_capitalised :
  result (execute (Canned.platform (inr EmptyString)) (Canned.client None) "getMe" ∅)
    = Raise (ClientError (VStr "Empty response from server")) /\
  result (execute (Canned.platform (inr EmptyString)) (Canned.client None) "getMe" ∅)
    <> Raise (ClientError (VStr "empty response from server")).
Proof. split; [reflexivity|discriminate]. Qed.

(** C8, amended: every call whose response body is empty fails with
    a [ClientError] whose message is exactly
    ["Empty response from server"]. *)
Theorem C8_empty_response :
  forall (P : Platform) (self : Client) (method : string) (kwargs : gmap string value)
         (text : string) (ssl_context : SSLContext),
    json_dumps P (VDict (payload method kwargs)) = inr text ->
    request_error P (_url self) = None ->
    create_default_context P (_cafile self) = inr ssl_context ->
    urlopen_read P (http_Request (_url self) (header_items self) (encode text))
                 (configure self ssl_context) = inr EmptyString ->
    _parse_response P EmptyString = Raise (ClientError (VStr "Empty response from server")) /\
    result (execute P self method kwargs) = Raise (ClientError (VStr "Empty response from server")).
Proof.
  intros P self method kwargs text ssl_context Hd Hurl Hctx Hread.
  split; [apply parse_empty|].
  rewrite (execute_parses _ _ _ _ _ _ _ Hd Hurl Hctx Hread). apply parse_empty.
Qed.

Lemma C8_empty_response_witness :
  result (execute (Canned.platform (inr EmptyString)) (Canned.client None)
                  "getMe" (<["id" := VInt 3]> ∅))
    = Raise (ClientError (VStr "Empty response from server")).
Proof.
  exact (proj2 (C8_empty_response (Canned.platform (inr EmptyString)) (Canned.client None)
                  "getMe" (<["id" := VInt 3]> ∅)
                  (Json.dumps (VDict (payload "getMe" (<["id" := VInt 3]> ∅))))
                  {| loaded_cafile := None; check_hostname := true; verify_mode := CERT_REQUIRED |}
                  eq_refl eq_refl eq_refl eq_refl)).
Defined.

(** C2, at [{"error": "Not found"}]: the body is a JSON object with
    an [error] member, and the call raises [AttributeError] for the
    missing [get] of a [str], not [ClientError]; the error member that
    is an object, and the body without one, behave as C2 says. *)
Theorem C2_error_member_not_an_object :
  Json.loads Canned.body_error_text = inr (VDict {[ "error" := VStr "Not found" ]}) /\
  _parse_response (Canned.platform (inr EmptyString)) Canned.body_error_text
    = Raise (AttributeError "str" "get") /\
  _parse_response (Canned.platform (inr EmptyString)) Canned.body_error_object
    = Raise (ClientError (VStr "Not found")) /\
  _parse_response (Canned.platform (inr EmptyString)) Canned.body_result = Return (VInt 42).
Proof. repeat split; vm_compute; reflexivity. Qed.

(** C3, at the same body and at the body [[]]: the exception that
    reaches the caller of [execute] is an [AttributeError], not a
    [ClientError]; a body that is no JSON text does give a
    [ClientError] whose message wraps the description of the
    failure. *)
Theorem C3_other_exception_escapes :
  result (execute (Canned.platform (inr Canned.body_error_text))
                  (Canned.client None) "getMe" ∅)
    = Raise (AttributeError "str" "get") /\
  result (execute (Canned.platform (inr "[]")) (Canned.client None) "getMe" ∅)
    = Raise (AttributeError "list" "get") /\
  (forall (P : Platform) (response description : string),
     response <> EmptyString ->
     json_loads P (decode response) = inl (ValueError description) ->
     _parse_response P response =
       Raise (ClientError (VStr ("Failed to parse JSON response: " +:+ description)))).
Proof.
  split; [vm_compute; reflexivity|].
  split; [vm_compute; reflexivity|].
  intros P response description Hne Hloads.
  apply parse_not_json; assumption.
Qed.



(** ** Dispatch *)

Lemma apply_execute_sent P self method kwargs request :
  request ∈ sent (apply_execute P self method kwargs) ->
  exists text,
    json_dumps P (VDict (payload method kwargs)) = inr text /\
    request = http_Request (_url self) (header_items self) (encode text).
Proof.
  unfold apply_execute. destruct (kwargs !! "self"); simpl.
  - intros Hin. inversion Hin.
  - destruct (execute_sent P self method kwargs) as [-> | [text [Hd ->]]]; intros Hin.
    + inversion Hin.
    + apply list_elem_of_singleton in Hin. eauto.
Qed.

Lemma invoke_sent P self name args kwargs request :
  request ∈ sent (completion (invoke (__getattr__ P self name) args kwargs)) ->
  exists method text,
    json_dumps P (VDict (payload method kwargs)) = inr text /\
    request = http_Request (_url self) (header_items self) (encode text).
Proof.
  unfold __getattr__. destruct (is_async_method_name name); simpl.
  - unfold async_function, run_in_executor.
    destruct (_event_loop self); simpl; [|intros Hin; inversion Hin].
    destruct (kwargs !! "method"); simpl; [intros Hin; inversion Hin|].
    intros Hin. eexists. apply (apply_execute_sent _ _ _ _ _ Hin).
  - unfold sync_function, call_execute.
    destruct (kwargs !! "method"); simpl; [intros Hin; inversion Hin|].
    intros Hin. eexists. apply (apply_execute_sent _ _ _ _ _ Hin).
Qed.

(** C10: the function [__getattr__] returns, plain or coroutine,
    does with positional arguments exactly what it does without them,
    same requests and same result or exception; a request it sends
    carries the keyword arguments, and nothing else, as [params]. *)
Theorem C10_positional_arguments_discarded :
  forall (P : Platform) (self : Client) (name : string)
         (args : list value) (kwargs : gmap string value),
    invoke (__getattr__ P self name) args kwargs
      = invoke (__getattr__ P self name) [] kwargs /\
    (forall request,
       request ∈ sent (completion (invoke (__getattr__ P self name) args kwargs)) ->
       exists method text,
         json_dumps P (VDict (payload method kwargs)) = inr text /\
         data request = encode text /\
         payload method kwargs !! "params" = Some (VDict kwargs)).
Proof.
  intros P self name args kwargs. split.
  - unfold __getattr__. destruct (is_async_method_name name); reflexivity.
  - intros request Hin.
    destruct (invoke_sent _ _ _ _ _ _ Hin) as [method [text [Hd ->]]].
    exists method, text. repeat split. exact Hd.
Qed.

(** With the loop attribute bound, the coroutine of [N_async]
    completes as the call of [N] does. *)
Lemma async_completes_as_sync P self loop N args kwargs :
  _event_loop self = Some loop ->
  is_async_method_name N = false ->
  completion (invoke (__getattr__ P self (N +:+ ASYNC_FUNCNAME_MARKER)) args kwargs)
    = completion (invoke (__getattr__ P self N) args kwargs).
Proof.
  intros Hloop HN.
  unfold __getattr__. rewrite HN.
  replace (is_async_method_name (N +:+ ASYNC_FUNCNAME_MARKER)) with true
    by (symmetry; apply endswith_iff; eauto).
  simpl. unfold async_function, sync_function, run_in_executor, call_execute.
  rewrite get_funcname_strips_marker, Hloop.
  destruct (kwargs !! "method"); reflexivity.
Qed.


(** A client built with a loop has no loop attribute. *)
Lemma init_with_loop P url username password auth_header cafile insecure
      ignore_hostname_verification user_agent loop :
  _event_loop (__init__ P url username password auth_header cafile insecure
                        ignore_hostname_verification user_agent (Some loop))
    = None.
Proof. reflexivity. Qed.

(** C6, at a client built with [loop=LoopId 7] and a server that
    answers [{"result": 42}]: the call of [get_me] sends its request
    and returns 42, the coroutine of [get_me_async] sends nothing and
    raises [AttributeError]. *)
Theorem C6_async_differs_with_supplied_loop :
  let P := Canned.platform (inr Canned.body_result) in
  let kb := Canned.client (Some (LoopId 7)) in
  is_async_method_name "get_me" = false /\
  result (completion (invoke (__getattr__ P kb "get_me") [] ∅)) = Return (VInt 42) /\
  length (sent (completion (invoke (__getattr__ P kb "get_me") [] ∅))) = 1 /\
  invoke (__getattr__ P kb "get_me_async") [] ∅
    = {| submitted_to := None;
         completion := raised (AttributeError "function" "run_in_executor") |}.
Proof. repeat split; vm_compute; reflexivity. Qed.

(** C9, at the same client: the loop handed to the constructor is
    not kept, and the coroutine is submitted to no loop at all; built
    without a loop, the client submits to the current loop. *)
Theorem C9_supplied_loop_is_dropped :
  let P := Canned.platform (inr Canned.body_result) in
  _event_loop (Canned.client (Some (LoopId 7))) = None /\
  submitted_to (invoke (__getattr__ P (Canned.client (Some (LoopId 7)))
                                    "get_me_async") [] ∅) = None /\
  result (completion
            (invoke (__getattr__ P (Canned.client (Some (LoopId 7)))
                                 "get_me_async") [] ∅))
    = Raise (AttributeError "function" "run_in_executor") /\
  submitted_to (invoke (__getattr__ P (Canned.client None)
                                    "get_me_async") [] ∅) = Some Canned.current_loop /\
  result (completion
            (invoke (__getattr__ P (Canned.client None)
                                 "get_me_async") [] ∅))
    = Return (VInt 42).
Proof. repeat split; vm_compute; reflexivity. Qed.

(** * Further properties of the code *)

(** ** Wire names *)

Lemma append_empty_r s : s +:+ EmptyString = s.
Proof.
  induction s as [|c s IH]; [reflexivity|].
  change (String c (s +:+ EmptyString) = String c s). rewrite IH. reflexivity.
Qed.

Lemma all_chars_append p a b :
  all_chars p (a +:+ b) = all_chars p a && all_chars p b.
Proof.
  induction a as [|c a IH]; [reflexivity|].
  change (p c && all_chars p (a +:+ b) = p c && all_chars p a && all_chars p b).
  rewrite IH. apply andb_assoc.
Qed.

Lemma casing_keeps_not_separator c :
  not_separator c = true ->
  not_separator (Str.to_upper c) = true /\ not_separator (Str.to_lower c) = true.
Proof.
  destruct c as [[] [] [] [] [] [] [] []]; vm_compute; intros H; split; congruence.
Qed.

Lemma title_from_not_separator segment :
  forall b, all_chars not_separator segment = true ->
            all_chars not_separator (Str.title_from b segment) = true.
Proof.
  induction segment as [|c rest IH]; intros b H; [reflexivity|].
  simpl in *. apply andb_true_iff in H as [Hc Hrest].
  destruct (casing_keeps_not_separator c Hc) as [Hup Hlow].
  rewrite (IH _ Hrest), andb_true_r. destruct b; assumption.
Qed.

Lemma title_from_length segment :
  forall b, String.length (Str.title_from b segment) = String.length segment.
Proof.
  induction segment as [|c rest IH]; intros b; [reflexivity|].
  simpl. rewrite IH. reflexivity.
Qed.

Lemma split_pieces_not_separator s :
  Forall (fun piece => all_chars not_separator piece = true) (Str.split "_" s).
Proof.
  assert (Hall : all_chars (fun _ => true) s = true) by (induction s; auto).
  pose proof (split_pieces (fun _ => true) "_" s Hall) as H.
  eapply Forall_impl; [exact H|]. intros piece Hpiece. exact Hpiece.
Qed.

Lemma split_without_separator s :
  all_chars not_separator s = true -> Str.split "_" s = [s].
Proof.
  induction s as [|c rest IH]; [reflexivity|].
  simpl. intros H. apply andb_true_iff in H as [Hc Hrest].
  unfold not_separator in Hc. apply negb_true_iff in Hc. rewrite Hc.
  rewrite (IH Hrest). reflexivity.
Qed.

Lemma join_titles_not_separator pieces :
  Forall (fun piece => all_chars not_separator piece = true) pieces ->
  all_chars not_separator (Str.join (map Str.title pieces)) = true.
Proof.
  induction 1 as [|piece pieces Hpiece _ IH]; [reflexivity|].
  simpl. rewrite all_chars_append, IH, andb_true_r.
  apply title_from_not_separator. assumption.
Qed.

Lemma camel_case_not_separator s :
  all_chars not_separator (_to_camel_case s) = true.
Proof.
  unfold _to_camel_case.
  pose proof (split_pieces_not_separator s) as H.
  destruct (Str.split "_" s) as [|first others]; [reflexivity|].
  inversion H; subst.
  rewrite all_chars_append, join_titles_not_separator by assumption.
  rewrite andb_true_r. assumption.
Qed.

Lemma camel_case_without_separator s :
  all_chars not_separator s = true -> _to_camel_case s = s.
Proof.
  intros H. unfold _to_camel_case. rewrite (split_without_separator s H).
  simpl. apply append_empty_r.
Qed.

(** X1: whatever the name, its wire name holds no underscore. *)
Theorem X1_wire_name_has_no_separator :
  forall name, count_char "_" (_to_camel_case name) = 0.
Proof.
  intros name. pose proof (camel_case_not_separator name) as H.
  induction (_to_camel_case name) as [|c rest IH]; [reflexivity|].
  simpl in *. apply andb_true_iff in H as [Hc Hrest].
  unfold not_separator in Hc. apply negb_true_iff in Hc.
  rewrite Hc. simpl. apply IH. assumption.
Qed.

(** X2: a name without underscore is its own wire name, whatever
    its characters, upper-case letters included. *)
Theorem X2_single_segment_unchanged :
  forall name, count_char "_" name = 0 -> _to_camel_case name = name.
Proof.
  intros name H. apply camel_case_without_separator.
  induction name as [|c rest IH]; [reflexivity|].
  simpl in *. unfold not_separator at 1.
  destruct (Ascii.eqb c "_"); simpl in *; [discriminate|]. apply IH. assumption.
Qed.

Lemma X2_single_segment_unchanged_witness :
  _to_camel_case "getAllProjects2" = "getAllProjects2".
Proof. apply (X2_single_segment_unchanged "getAllProjects2"). reflexivity. Defined.

(** X3: translating a wire name again changes nothing. *)
Theorem X3_to_camel_case_idempotent :
  forall name, _to_camel_case (_to_camel_case name) = _to_camel_case name.
Proof.
  intros name. apply camel_case_without_separator, camel_case_not_separator.
Qed.

Lemma split_total_length s :
  total_length (Str.split "_" s) + count_char "_" s = String.length s.
Proof.
  induction s as [|c rest IH]; [reflexivity|].
  simpl. destruct (Ascii.eqb c "_"); simpl.
  - rewrite <- IH. lia.
  - pose proof (split_nonempty "_" rest) as Hne.
    destruct (Str.split "_" rest) as [|piece pieces]; [congruence|].
    simpl in *. lia.
Qed.

Lemma join_titles_length pieces :
  String.length (Str.join (map Str.title pieces)) = total_length pieces.
Proof.
  induction pieces as [|piece pieces IH]; [reflexivity|].
  simpl. rewrite length_append, IH. unfold Str.title.
  rewrite title_from_length. reflexivity.
Qed.

(** X4: for a name of ASCII characters, the wire name is shorter
    than the name by the number of underscores in the name, no
    character is lost or added otherwise. *)
Theorem X4_wire_name_length :
  forall name,
    is_ascii name = true ->
    String.length (_to_camel_case name) + count_char "_" name = String.length name.
Proof.
  intros name _. rewrite <- (split_total_length name).
  unfold _to_camel_case.
  pose proof (split_nonempty "_" name) as Hne.
  destruct (Str.split "_" name) as [|first others]; [congruence|].
  rewrite length_append, join_titles_length. reflexivity.
Qed.

Lemma X4_wire_name_length_witness :
  String.length (_to_camel_case "get_all_projects") + 2 = 16.
Proof. exact (X4_wire_name_length "get_all_projects" eq_refl). Defined.

Lemma title_from_cased_letters segment :
  all_chars Str.is_cased segment = true ->
  Str.title_from true segment = lower segment.
Proof.
  induction segment as [|c rest IH]; [reflexivity|].
  simpl. intros H. apply andb_true_iff in H as [Hc Hrest].
  rewrite Hc, (IH Hrest). reflexivity.
Qed.

Lemma title_of_letters segment :
  all_chars Str.is_cased segment = true -> Str.title segment = capitalize segment.
Proof.
  destruct segment as [|c rest]; [reflexivity|].
  unfold Str.title. simpl. intros H. apply andb_true_iff in H as [Hc Hrest].
  rewrite Hc, (title_from_cased_letters rest Hrest). reflexivity.
Qed.

(** X5: in a name made of letters and underscores, every segment
    after the first comes out capitalised as by [str.capitalize()]:
    its first letter upper-cased and all its other letters
    lower-cased, so that upper-case letters inside a later segment are
    lost. *)
Theorem X5_later_segments_capitalized :
  forall name,
    all_chars letter_or_separator name = true ->
    _to_camel_case name =
      match Str.split "_" name with
      | [] => EmptyString
      | first :: others => first +:+ Str.join (map capitalize others)
      end.
Proof.
  intros name Hform. unfold _to_camel_case.
  pose proof (split_pieces letter_or_separator "_" name Hform) as Hpieces.
  destruct (Str.split "_" name) as [|first others]; [reflexivity|].
  f_equal. f_equal.
  inversion Hpieces as [|? ? _ Hothers]; subst. clear Hpieces.
  induction Hothers as [|segment others Hsegment _ IH]; [reflexivity|].
  simpl. rewrite IH. f_equal. apply title_of_letters.
  clear -Hsegment. induction segment as [|c rest IH]; [reflexivity|].
  simpl in *. apply andb_true_iff in Hsegment as [Hc Hrest].
  rewrite (IH Hrest), andb_true_r.
  unfold letter_or_separator in Hc.
  apply andb_true_iff in Hc as [Hc Hne]. apply negb_true_iff in Hne.
  rewrite Hne, orb_false_r in Hc. exact Hc.
Qed.

Lemma X5_later_segments_capitalized_witness :
  _to_camel_case "get_userID_byName" = "getUseridByname".
Proof.
  exact (X5_later_segments_capitalized "get_userID_byName" eq_refl).
Defined.

Lemma substring_prefix_length n :
  forall s, n <= String.length s -> String.length (substring 0 n s) = n.
Proof.
  induction n as [|n IH]; intros s Hn.
  - destruct s; reflexivity.
  - destruct s as [|c s]; simpl in *; [lia|]. rewrite IH by lia. reflexivity.
Qed.

(** X6: [get_funcname_from_async_name] always gives a prefix of the
    name, whether or not the name ends in the marker: the name without
    its last six characters when it has six or more, and, through the
    negative slice bound, its first [2 * n - 6] characters when it has
    [n < 6]. *)
Theorem X6_funcname_is_prefix :
  forall name,
    (exists rest, name = get_funcname_from_async_name name +:+ rest) /\
    String.length (get_funcname_from_async_name name) =
      (if (6 <=? String.length name)%nat
       then (String.length name - 6)%nat
       else (2 * String.length name - 6)%nat).
Proof.
  intros name. unfold get_funcname_from_async_name, Str.slice_to.
  change (String.length ASYNC_FUNCNAME_MARKER) with 6%nat.
  set (n := String.length name).
  set (stop := if (Z.of_nat n - Z.of_nat 6 <? 0)%Z
               then Z.max 0 (Z.of_nat n + (Z.of_nat n - Z.of_nat 6))
               else Z.min (Z.of_nat n - Z.of_nat 6) (Z.of_nat n)).
  assert (Hstop : Z.to_nat stop = if (6 <=? n)%nat then (n - 6)%nat else (2 * n - 6)%nat).
  { subst stop.
    destruct (Nat.leb_spec 6 n); destruct (Z.ltb_spec (Z.of_nat n - Z.of_nat 6) 0); lia. }
  assert (Hle : Z.to_nat stop <= n).
  { rewrite Hstop. destruct (Nat.leb_spec 6 n); lia. }
  split.
  - exists (substring (Z.to_nat stop) (n - Z.to_nat stop) name).
    symmetry. apply substring_cut. exact Hle.
  - rewrite substring_prefix_length by exact Hle. exact Hstop.
Qed.

(** ** Responses *)

Section ParsedResponses.

Variable P : Platform.
Variable response : string.

Lemma parse_nonempty :
  response <> EmptyString ->
  _parse_response P response =
    match json_loads P (decode response) with
    | inl (ValueError e) =>
        Raise (ClientError (VStr ("Failed to parse JSON response: " +:+ e)))
    | inl (TooDeep message) => Raise (RecursionError message)
    | inr body =>
        let? has_error := contains "error" body in
        if has_error then
          let? error := get body "error" in
          let? message := get error "message" in
          Raise (ClientError message)
        else
          let? result := get body "result" in
          Return result
    end.
Proof.
  intros Hne. unfold _parse_response.
  apply String.eqb_neq in Hne. rewrite Hne. reflexivity.
Qed.

(** The outcome for a body that decodes to a dict. *)
Lemma parse_dict members :
  response <> EmptyString ->
  json_loads P (decode response) = inr (VDict members) ->
  _parse_response P response =
    match members !! "error" with
    | None => Return (default VNone (members !! "result"))
    | Some (VDict error) => Raise (ClientError (default VNone (error !! "message")))
    | Some other => Raise (AttributeError (type_name other) "get")
    end.
Proof.
  intros Hne Hloads. rewrite (parse_nonempty Hne), Hloads. simpl.
  destruct (members !! "error") as [error|] eqn:Herror.
  - rewrite bool_decide_true by eauto. simpl.
    destruct error as [| | | | | |fields]; try reflexivity.
    simpl. destruct (fields !! "message"); reflexivity.
  - rewrite bool_decide_false by (intros [? ?]; discriminate). simpl.
    destruct (members !! "result"); reflexivity.
Qed.

(** The outcome for a body that decodes to anything else. *)
Lemma parse_not_dict body :
  response <> EmptyString ->
  json_loads P (decode response) = inr body ->
  (forall members, body <> VDict members) ->
  _parse_response P response =
    Raise (match body with
           | VStr _ | VList _ => AttributeError (type_name body) "get"
           | _ => TypeError_not_iterable (type_name body)
           end).
Proof.
  intros Hne Hloads Hshape. rewrite (parse_nonempty Hne), Hloads.
  destruct body as [| | | |text|items|members]; simpl; try reflexivity.
  - destruct (Str.has_substring "error" text); reflexivity.
  - destruct (existsb _ items); reflexivity.
  - exfalso. apply (Hshape members). reflexivity.
Qed.

End ParsedResponses.

(** X7: a call returns a value only for a body that is not empty
    and decodes to a JSON object without an [error] member; the value
    is then the [result] member, or [None] when the object has no such
    member. *)
Theorem X7_returns_only_for_object_without_error :
  forall (P : Platform) (response : string) (v : value),
    _parse_response P response = Return v <->
    response <> EmptyString /\
    exists members,
      json_loads P (decode response) = inr (VDict members) /\
      members !! "error" = None /\
      v = default VNone (members !! "result").
Proof.
  intros P response v. split.
  - intros Hret.
    assert (Hne : response <> EmptyString).
    { intros ->. rewrite parse_empty in Hret. discriminate. }
    split; [exact Hne|].
    rewrite (parse_nonempty P response Hne) in Hret.
    destruct (json_loads P (decode response)) as [[e|message]|body] eqn:Hloads;
      [discriminate|discriminate|].
    destruct body as [| | | |text|items|members]; simpl in Hret; try discriminate.
    + destruct (Str.has_substring "error" text); discriminate.
    + destruct (existsb _ items); discriminate.
    + exists members. split; [reflexivity|].
      destruct (members !! "error") as [error|] eqn:Herror.
      * rewrite bool_decide_true in Hret by eauto. simpl in Hret.
        destruct error as [| | | | | |fields]; simpl in Hret; try discriminate.
        destruct (fields !! "message"); discriminate.
      * split; [reflexivity|].
        rewrite bool_decide_false in Hret by (intros [? ?]; discriminate).
        simpl in Hret. destruct (members !! "result"); simpl; congruence.
  - intros [Hne [members [Hloads [Herror ->]]]].
    rewrite (parse_dict P response members Hne Hloads), Herror. reflexivity.
Qed.

(** X8: when the body decodes to an object whose [error] member is
    itself an object, the call raises [ClientError] with that object's
    [message] member, or with [None] when it has none, whatever else
    the body holds, a [result] member included. *)
Theorem X8_error_object_wins :
  forall (P : Platform) (response : string) (members error : gmap string value),
    response <> EmptyString ->
    json_loads P (decode response) = inr (VDict members) ->
    members !! "error" = Some (VDict error) ->
    _parse_response P response = Raise (ClientError (default VNone (error !! "message"))).
Proof.
  intros P response members error Hne Hloads Herror.
  rewrite (parse_dict P response members Hne Hloads), Herror. reflexivity.
Qed.

Lemma X8_error_object_wins_witness :
  _parse_response (Canned.platform (inr EmptyString))
    ("{" +:+ Json.quote "result" +:+ ": 42, " +:+ Json.quote "error" +:+ ": {"
         +:+ Json.quote "code" +:+ ": -32601}}")
    = Raise (ClientError VNone).
Proof.
  refine (X8_error_object_wins (Canned.platform (inr EmptyString)) _
            {[ "result" := VInt 42; "error" := VDict {[ "code" := VInt (-32601) ]} ]}
            {[ "code" := VInt (-32601) ]} _ _ _).
  - discriminate.
  - vm_compute. reflexivity.
  - reflexivity.
Defined.

(** X9: a body that decodes to a JSON value other than an object
    never gives a result nor a [ClientError]: a string or an array
    raises [AttributeError] for the missing [get], a number, a boolean
    or [null] raises [TypeError] at the membership test. *)
Theorem X9_non_object_body_escapes :
  forall (P : Platform) (response : string) (body : value),
    response <> EmptyString ->
    json_loads P (decode response) = inr body ->
    (forall members, body <> VDict members) ->
    _parse_response P response =
      Raise (match body with
             | VStr _ | VList _ => AttributeError (type_name body) "get"
             | _ => TypeError_not_iterable (type_name body)
             end).
Proof. intros P response body. apply parse_not_dict. Qed.

Lemma X9_non_object_body_escapes_witness :
  _parse_response (Canned.platform (inr EmptyString)) "[1, 2]"
    = Raise (AttributeError "list" "get") /\
  _parse_response (Canned.platform (inr EmptyString)) "null"
    = Raise (TypeError_not_iterable "NoneType").
Proof.
  split.
  - refine (X9_non_object_body_escapes (Canned.platform (inr EmptyString)) "[1, 2]"
              (VList [VInt 1; VInt 2]) _ _ _);
      [discriminate | vm_compute; reflexivity | discriminate].
  - refine (X9_non_object_body_escapes (Canned.platform (inr EmptyString)) "null"
              VNone _ _ _);
      [discriminate | vm_compute; reflexivity | discriminate].
Defined.

(** X10: parsing raises [ClientError] in exactly three cases: the
    body is empty, [json.loads] raises [ValueError] on it, or the body
    decodes to an object whose [error] member is an object. *)
Theorem X10_client_error_cases :
  forall (P : Platform) (response : string),
    (exists message, _parse_response P response = Raise (ClientError message)) <->
    response = EmptyString \/
    (exists description, json_loads P (decode response) = inl (ValueError description)) \/
    (exists members error,
       json_loads P (decode response) = inr (VDict members) /\
       members !! "error" = Some (VDict error)).
Proof.
  intros P response. split.
  - intros [message Hraise].
    destruct (decide (response = EmptyString)) as [|Hne]; [left; assumption|right].
    destruct (json_loads P (decode response)) as [[e|why]|body] eqn:Hloads.
    { left. eauto. }
    { rewrite (parse_nonempty P response Hne), Hloads in Hraise. discriminate. }
    right.
    destruct body as [| | | |text|items|members];
      try (rewrite (parse_not_dict P response _ Hne Hloads) in Hraise
             by discriminate; discriminate).
    rewrite (parse_dict P response members Hne Hloads) in Hraise.
    destruct (members !! "error") as [error|] eqn:Herror; [|discriminate].
    destruct error; try discriminate. eauto.
  - intros [-> | [[description Hloads] | [members [error [Hloads Herror]]]]].
    + rewrite parse_empty. eauto.
    + destruct (decide (response = EmptyString)) as [->|Hne];
        [rewrite parse_empty; eauto|].
      rewrite (parse_nonempty P response Hne), Hloads. eauto.
    + destruct (decide (response = EmptyString)) as [->|Hne];
        [rewrite parse_empty; eauto|].
      rewrite (parse_dict P response members Hne Hloads), Herror. eauto.
Qed.

(** ** The round trip *)



(** X12: a failure before a response is there surfaces as a
    [ClientError] carrying its text: a payload that [json.dumps]
    refuses, a URL that [Request] refuses and a TLS context that cannot
    be created, in that order of precedence and with nothing handed to
    the network, and a failed round trip, with the one request handed
    over. *)
Theorem X12_failures_before_response :
  forall (P : Platform) (self : Client) (method : string) (kwargs : gmap string value),
    (forall e,
       json_dumps P (VDict (payload method kwargs)) = inl e ->
       execute P self method kwargs =
         {| sent := []; result := Raise (ClientError (VStr e)) |}) /\
    (forall text e,
       json_dumps P (VDict (payload method kwargs)) = inr text ->
       request_error P (_url self) = Some e ->
       execute P self method kwargs =
         {| sent := []; result := Raise (ClientError (VStr e)) |}) /\
    (forall text e,
       json_dumps P (VDict (payload method kwargs)) = inr text ->
       request_error P (_url self) = None ->
       create_default_context P (_cafile self) = inl e ->
       execute P self method kwargs =
         {| sent := []; result := Raise (ClientError (VStr e)) |}) /\
    (forall text ssl_context e,
       json_dumps P (VDict (payload method kwargs)) = inr text ->
       request_error P (_url self) = None ->
       create_default_context P (_cafile self) = inr ssl_context ->
       urlopen_read P (http_Request (_url self) (header_items self) (encode text))
                    (configure self ssl_context) = inl e ->
       execute P self method kwargs =
         {| sent := [http_Request (_url self) (header_items self) (encode text)];
            result := Raise (ClientError (VStr e)) |}).
Proof.
  intros P self method kwargs. repeat split.
  - apply execute_unserialisable.
  - apply execute_url_refused.
  - apply execute_context_refused.
  - intros text ssl_context e Hd Hurl Hctx Hread.
    rewrite (execute_round_trip P self method kwargs text ssl_context Hd Hurl Hctx), Hread.
    reflexivity.
Qed.

(** X13: [execute] hands a request to the network exactly when the
    payload is serialised, the URL accepted and the TLS context
    created, and then exactly one, whatever the response: nothing is
    sent again after a failure or an error reply. *)
Theorem X13_one_request_when_set_up :
  forall (P : Platform) (self : Client) (method : string) (kwargs : gmap string value),
    ((exists request, sent (execute P self method kwargs) = [request]) <->
     (exists text, json_dumps P (VDict (payload method kwargs)) = inr text) /\
     request_error P (_url self) = None /\
     (exists ssl_context, create_default_context P (_cafile self) = inr ssl_context)) /\
    (sent (execute P self method kwargs) = [] <->
     (exists e, json_dumps P (VDict (payload method kwargs)) = inl e) \/
     request_error P (_url self) <> None \/
     (exists e, create_default_context P (_cafile self) = inl e)) /\
    (forall request,
       request ∈ sent (execute P self method kwargs) ->
       exists text,
         json_dumps P (VDict (payload method kwargs)) = inr text /\
         request = http_Request (_url self) (header_items self) (encode text)).
Proof.
  intros P self method kwargs.
  assert (Hthird : forall request,
            request ∈ sent (execute P self method kwargs) ->
            exists text,
              json_dumps P (VDict (payload method kwargs)) = inr text /\
              request = http_Request (_url self) (header_items self) (encode text)).
  { intros request Hin.
    destruct (execute_sent P self method kwargs) as [Hnone|[text [Hd Hone]]].
    - rewrite Hnone in Hin. inversion Hin.
    - rewrite Hone in Hin. apply list_elem_of_singleton in Hin. eauto. }
  destruct (json_dumps P (VDict (payload method kwargs))) as [err|text] eqn:Hd.
  { rewrite (execute_unserialisable P self method kwargs err Hd) in *. simpl.
    split; [|split; [|exact Hthird]]; split.
    - intros [? ?]. discriminate.
    - intros [[? ?] _]. discriminate.
    - intros _. left. eauto.
    - reflexivity. }
  destruct (request_error P (_url self)) as [err|] eqn:Hurl.
  { rewrite (execute_url_refused P self method kwargs text err Hd Hurl) in *. simpl.
    split; [|split; [|exact Hthird]]; split.
    - intros [? ?]. discriminate.
    - intros [_ [? _]]. discriminate.
    - intros _. right. left. discriminate.
    - reflexivity. }
  destruct (create_default_context P (_cafile self)) as [err|ssl_context] eqn:Hctx.
  { rewrite (execute_context_refused P self method kwargs text err Hd Hurl Hctx) in *. simpl.
    split; [|split; [|exact Hthird]]; split.
    - intros [? ?]. discriminate.
    - intros [_ [_ [? ?]]]. discriminate.
    - intros _. right. right. eauto.
    - reflexivity. }
  rewrite (execute_round_trip P self method kwargs text ssl_context Hd Hurl Hctx) in *. simpl.
  split; [|split; [|exact Hthird]]; split.
  - intros _. repeat split; eauto.
  - intros _. eauto.
  - discriminate.
  - intros [[? ?] | [Hne | [? ?]]]; [discriminate|congruence|discriminate].
Qed.

(** ** The TLS context *)

(** X14: in the context handed to [urlopen], host names are checked
    only when both flags are off and the default context checks them;
    certificate verification is switched off by [insecure] and by
    nothing else, [ignore_hostname_verification] leaves it as it was;
    the CA file is the one the context was created with. *)
Theorem X14_tls_flags :
  forall (self : Client) (ssl_context : SSLContext),
    (check_hostname (configure self ssl_context) = true <->
     check_hostname ssl_context = true /\
     _insecure self = false /\ _ignore_hostname_verification self = false) /\
    (verify_mode (configure self ssl_context) = CERT_NONE <->
     _insecure self = true \/ verify_mode ssl_context = CERT_NONE) /\
    loaded_cafile (configure self ssl_context) = loaded_cafile ssl_context.
Proof.
  intros self ssl_context. unfold configure.
  destruct (_insecure self), (_ignore_hostname_verification self); simpl;
    repeat split; try tauto; try discriminate;
    try (intros [_ [? ?]]; discriminate);
    try (intros [? | ?]; congruence); intuition congruence.
Qed.

(** X15: the assignments to the context, made one after the other
    through the setters of [ssl], never raise: [check_hostname] is
    cleared before [verify_mode] is set to [CERT_NONE]; they end in the
    context described above, which still checks host names only where
    it verifies certificates. *)
Theorem X15_tls_assignments_never_raise :
  forall (self : Client) (ssl_context : SSLContext),
    configure_stepwise self ssl_context = inr (configure self ssl_context) /\
    (Ssl.consistent ssl_context -> Ssl.consistent (configure self ssl_context)).
Proof.
  intros self ssl_context. unfold configure_stepwise, configure, Ssl.consistent.
  destruct ssl_context as [cafile hostname mode].
  destruct (_insecure self), (_ignore_hostname_verification self); simpl;
    split; try reflexivity; try discriminate; try tauto.
Qed.

(** ** Headers and payload *)



(** X17: the payload determines the call: two calls build the same
    payload only if they name the same method with the same keyword
    arguments. *)
Theorem X17_payload_determines_call :
  forall (m1 m2 : string) (k1 k2 : gmap string value),
    payload m1 k1 = payload m2 k2 <-> m1 = m2 /\ k1 = k2.
Proof.
  intros m1 m2 k1 k2. split.
  - intros Heq.
    assert (Hm : Some (VStr m1) = Some (VStr m2)).
    { change (payload m1 k1 !! "method" = payload m2 k2 !! "method"). rewrite Heq. reflexivity. }
    assert (Hk : Some (VDict k1) = Some (VDict k2)).
    { change (payload m1 k1 !! "params" = payload m2 k2 !! "params"). rewrite Heq. reflexivity. }
    split; congruence.
  - intros [-> ->]. reflexivity.
Qed.

(** ** Asynchronous calls *)

Section Constructed.

Variable P : Platform.
Variables url username password auth_header user_agent : string.
Variable cafile : option string.
Variables insecure ignore_hostname_verification : bool.

Let make (loop : option Loop) : Client :=
  __init__ P url username password auth_header cafile insecure
             ignore_hostname_verification user_agent loop.

Lemma async_resolves name :
  is_async_method_name name = true ->
  forall self, __getattr__ P self name = CoroutineFunction (async_function P self name).
Proof. intros H self. unfold __getattr__. rewrite H. reflexivity. Qed.

Lemma made_with_loop_fails loop name args kwargs :
  is_async_method_name name = true ->
  invoke (__getattr__ P (make (Some loop)) name) args kwargs =
    {| submitted_to := None;
       completion := raised (AttributeError "function" "run_in_executor") |}.
Proof. intros H. rewrite (async_resolves name H). reflexivity. Qed.

End Constructed.

(** X18: on a client constructed with a loop, every asynchronous
    call, whatever its name and arguments, raises [AttributeError] for
    [run_in_executor], is submitted to no loop and sends nothing. *)
Theorem X18_supplied_loop_breaks_every_async_call :
  forall (P : Platform) (url username password auth_header : string)
         (cafile : option string) (insecure ignore_hostname_verification : bool)
         (user_agent : string) (loop : Loop)
         (name : string) (args : list value) (kwargs : gmap string value),
    is_async_method_name name = true ->
    invoke (__getattr__ P (__init__ P url username password auth_header cafile insecure
                                    ignore_hostname_verification user_agent (Some loop))
                        name) args kwargs =
      {| submitted_to := None;
         completion := {| sent := [];
                          result := Raise (AttributeError "function" "run_in_executor") |} |}.
Proof.
  intros P url username password auth_header cafile insecure ignore user_agent
         loop name args kwargs H.
  apply made_with_loop_fails. exact H.
Qed.

Lemma X18_supplied_loop_breaks_every_async_call_witness :
  invoke (__getattr__ (Canned.platform (inr Canned.body_result))
                      (Canned.client (Some (LoopId 3))) "create_task_async")
         [] (<["title" := VStr "t"]> ∅) =
    {| submitted_to := None;
       completion := {| sent := [];
                        result := Raise (AttributeError "function" "run_in_executor") |} |}.
Proof.
  exact (X18_supplied_loop_breaks_every_async_call
           (Canned.platform (inr Canned.body_result))
           "http://localhost/jsonrpc.php" "jsonrpc" "token" DEFAULT_AUTH_HEADER None
           false false "Kanboard Python API Client" (LoopId 3)
           "create_task_async" [] (<["title" := VStr "t"]> ∅) eq_refl).
Defined.





(** ** Credentials *)

Lemma get_counts i :
  forall s c, String.get i s = Some c -> (0 < count_char c s)%nat.
Proof.
  induction i as [|i IH]; intros [|c' s] c H; simpl in *; try discriminate.
  - inversion H; subst. rewrite Ascii.eqb_refl. lia.
  - specialize (IH s c H). lia.
Qed.

Lemma digit_is_base64_char n : base64_char (Base64.digit n) = true.
Proof.
  unfold base64_char, Base64.digit.
  destruct (String.get (N.to_nat n) Base64.alphabet) as [c|] eqn:Hget.
  - apply get_counts in Hget. apply orb_true_iff. left. apply Nat.ltb_lt. exact Hget.
  - reflexivity.
Qed.

Lemma b64encode_shape n :
  forall s, String.length s <= n ->
    String.length (Base64.b64encode s) = (4 * ((String.length s + 2) / 3))%nat /\
    all_chars base64_char (Base64.b64encode s) = true.
Proof.
  induction n as [|n IH]; intros s Hlen.
  - destruct s; simpl in Hlen; [split; reflexivity|lia].
  - destruct s as [|a [|b [|c rest]]].
    + split; reflexivity.
    + cbn [Base64.b64encode all_chars String.length]. rewrite !digit_is_base64_char.
      split; reflexivity.
    + cbn [Base64.b64encode all_chars String.length]. rewrite !digit_is_base64_char.
      split; reflexivity.
    + cbn [Base64.b64encode all_chars String.length] in *.
      destruct (IH rest ltac:(lia)) as [IHlen IHchars].
      rewrite !digit_is_base64_char, IHchars, IHlen. split; [|reflexivity].
      replace (S (S (S (String.length rest))) + 2)%nat
        with (1 * 3 + (String.length rest + 2))%nat by lia.
      rewrite Nat.div_add_l by lia. lia.
Qed.

Lemma encode_length s :
  String.length (encode s) = (String.length s + non_ascii s)%nat.
Proof.
  induction s as [|c rest IH]; [reflexivity|].
  cbn [encode non_ascii]. rewrite length_append, IH. unfold utf8.
  destruct (Str.code c <? 128)%N; simpl; lia.
Qed.

(** X21: the credentials are a base64 text of the UTF-8 bytes of
    [username:password]: four characters for every three bytes, or
    part of three, each a digit of the alphabet or the padding [=];
    the bytes are one for each character of the text and one more for
    each character from code point 128 on. *)
Theorem X21_credentials_shape :
  forall (self : Client),
    String.length (credentials self) =
      (4 * ((String.length (_username self) + 1 + String.length (_password self)
             + non_ascii (_username self) + non_ascii (_password self) + 2) / 3))%nat /\
    all_chars base64_char (credentials self) = true.
Proof.
  intros self. unfold credentials.
  destruct (b64encode_shape _ (encode (_username self +:+ ":" +:+ _password self)) (le_n _))
    as [Hlen Hchars].
  rewrite Hlen, Hchars, encode_length, !length_append. split; [|reflexivity].
  assert (Hcount : forall a b, non_ascii (a +:+ b) = (non_ascii a + non_ascii b)%nat).
  { intros a b. induction a as [|c a IH]; [reflexivity|].
    change (non_ascii (String c (a +:+ b)) = (non_ascii (String c a) + non_ascii b)%nat).
    simpl. rewrite IH. lia. }
  rewrite !Hcount. change (String.length ":") with 1%nat.
  change (non_ascii ":") with 0%nat. f_equal. f_equal. lia.
Qed.
